(** * Smart_Sentinel: the detection-cycle orchestrator of [yolo_listener.py]

    A shallow embedding of the listener: the module-level flag
    [is_detecting] and the temporary capture file are the mutable state, the
    camera, the detector process, the clock and the rest of the filesystem
    are oracles gathered in a record [Env], every [print] and every call
    that leaves the process is written to an output trace, and Python
    exceptions are an explicit [Raise] result. *)

From Stdlib Require Import String Ascii List ZArith Bool Arith Lia.
Import ListNotations.
Local Open Scope string_scope.
Local Open Scope list_scope.

(** ** Python values: exceptions and results *)

(** The exception classes the listener can meet.  All of them derive from
    [Exception]; [CalledProcessError] is the only one a handler names. *)
Inductive exn : Type :=
| ValueError
| OSError
| CvError
| UnicodeDecodeError
| CalledProcessError.

Inductive result (A : Type) : Type :=
| Ret (a : A)
| Raise (e : exn).
Arguments Ret {A} a.
Arguments Raise {A} e.

(** An image as [cap.read()] hands it over; its pixels play no role. *)
Definition frame : Type := nat.

(** ** Configuration (lines 13-24) *)

Definition AI_TRIGGER_TOPIC : string := "/smart_sentinel/command/ai_trigger".
Definition CAMERA_INDEX : string := "1".

(** [os.path.join] on two POSIX components, the second one relative. *)
Definition path_join (a b : string) : string := a ++ "/" ++ b.

(** [os.path.dirname(os.path.abspath(__file__))]; the source comments that
    the listener is assumed to live in [/yolov5]. *)
Definition YOLO_ROOT_DIR : string := "/yolov5".
Definition TEMP_IMAGE_PATH : string := path_join YOLO_ROOT_DIR "temp_capture.jpg".
Definition PERSON_CLASS_ID : string := "0".

(** ** Output trace *)

(** One constructor per [print] of the source, named after its line. *)
Inductive log_msg : Type :=
| LogCaptureAttempt (index : string)          (* 32 *)
| LogCannotOpen (index : string)              (* 38 *)
| LogFrameSaved (path : string)               (* 50 *)
| LogReadFailed                               (* 53 *)
| LogCaptureError (e : exn)                   (* 56 *)
| LogLatestFolderError (e : exn)              (* 78 *)
| LogNoCrop                                   (* 97 *)
| LogNoLabelFolder                            (* 109 *)
| LogSkipEmpty (label_file : string)          (* 118 *)
| LogLabelReadError (label_file : string) (e : exn) (* 129 *)
| LogReceived (topic payload : string)        (* 150 *)
| LogTriggerReceived                          (* 155 *)
| LogAlreadyRunning                           (* 159 *)
| LogNoFrame                                  (* 170 *)
| LogExecuting (argv : list string)           (* 189 *)
| LogWaiting                                  (* 195 *)
| LogCompleted                                (* 199 *)
| LogNoOutputFolder                           (* 209 *)
| LogAnalyzing (folder : string)              (* 212 *)
| LogPersonDetected                           (* 219 *)
| LogEvidenceSaved (path : string)            (* 222 *)
| LogNoEvidence                               (* 224 *)
| LogSendingAlert                             (* 227 *)
| LogNoPerson                                 (* 231 *)
| LogSubprocessError (e : exn)                (* 237 *)
| LogUnhandled (e : exn)                      (* 239 *)
| LogCleanedUp (path : string)                (* 244 *)
| LogStandby.                                 (* 247 *)

(** What an observer of the process sees, in order: the printed lines, the
    calls to the camera, the child process and the filesystem, and the
    assignments to the global flag. *)
Inductive event : Type :=
| Printed (m : log_msg)
| VideoCapture (index : Z)
| Sleep (milliseconds : nat)
| CapRead
| CapRelease
| Imwrite (path : string)
| Popen (argv : list string)
| ProcWait (exit_status : Z)
| Glob (pattern : string)
| PathExists (path : string)
| Listdir (path : string)
| Getsize (path : string)
| OpenRead (path : string)
| Remove (path : string)
| SetDetecting (b : bool).

(** ** The world outside the process *)

(** A [cv2.VideoCapture] object: what its three methods will answer. *)
Record Capture : Type := {
  isOpened : bool;
  read : result (bool * frame);
  release : result unit
}.

(** The oracles of one detection cycle.  Timestamps are integers counted
    in milliseconds, standing for the floating-point seconds of
    [os.path.getctime] and [time.time]; [time_time k] is the value of the
    [k]-th call of [time.time()] made by the cycle. *)
Record Env : Type := {
  py_int : string -> result Z;
  cv2_VideoCapture : Z -> result Capture;
  cv2_imwrite : string -> frame -> result bool;
  popen : list string -> result unit;
  proc_wait : Z;
  glob_glob : string -> list string;
  getctime : string -> result Z;
  time_time : nat -> Z;
  path_exists : string -> bool;
  listdir : string -> result (list string);
  getsize : string -> result nat;
  read_text : string -> result string;
  os_remove : string -> result unit
}.

(** ** Program state and the monad of the embedding *)

(** The state that survives from one statement to the next: the global of
    line 26 and whether the file at [TEMP_IMAGE_PATH] exists. *)
Record State : Type := {
  is_detecting : bool;
  temp_image : bool
}.

Definition set_is_detecting (b : bool) (s : State) : State :=
  {| is_detecting := b; temp_image := temp_image s |}.
Definition set_temp_image (b : bool) (s : State) : State :=
  {| is_detecting := is_detecting s; temp_image := b |}.

(** A statement maps the state to a result, the new state and the events
    it emitted.  A raised exception keeps the state and the events reached
    so far. *)
Definition M (A : Type) : Type := State -> result A * State * list event.

Definition ret {A} (a : A) : M A := fun s => (Ret a, s, []).

Definition bind {A B} (m : M A) (f : A -> M B) : M B :=
  fun s =>
    match m s with
    | (Ret a, s1, t1) =>
        match f a s1 with
        | (r, s2, t2) => (r, s2, t1 ++ t2)
        end
    | (Raise e, s1, t1) => (Raise e, s1, t1)
    end.

Declare Scope py_scope.
Delimit Scope py_scope with py.
Notation "x <- m ;; k" := (bind m (fun x => k))
  (at level 100, m at next level, right associativity) : py_scope.
Notation "m ;; k" := (bind m (fun _ => k))
  (at level 100, right associativity) : py_scope.
Local Open Scope py_scope.

Definition emit (e : event) : M unit := fun s => (Ret tt, s, [e]).
Definition print (m : log_msg) : M unit := emit (Printed m).
Definition get_state : M State := fun s => (Ret s, s, []).

(** An oracle answer becomes a statement. *)
Definition lift {A} (r : result A) : M A := fun s => (r, s, []).

(** [try: m  except Exception as e: h e] *)
Definition try_except {A} (m : M A) (h : exn -> M A) : M A :=
  fun s =>
    match m s with
    | (Ret a, s1, t1) => (Ret a, s1, t1)
    | (Raise e, s1, t1) =>
        match h e s1 with
        | (r, s2, t2) => (r, s2, t1 ++ t2)
        end
    end.

(** [try: m  finally: f]: [f] runs whatever [m] did; an exception of [f]
    replaces the result of [m]. *)
Definition try_finally {A} (m : M A) (f : M unit) : M A :=
  fun s =>
    match m s with
    | (r, s1, t1) =>
        match f s1 with
        | (Ret _, s2, t2) => (r, s2, t1 ++ t2)
        | (Raise e, s2, t2) => (Raise e, s2, t1 ++ t2)
        end
    end.

(** ** Calls that touch the state *)

(** [global is_detecting; is_detecting = b] *)
Definition assign_is_detecting (b : bool) : M unit :=
  fun s => (Ret tt, set_is_detecting b s, [SetDetecting b]).

(** [os.path.exists(path)]: the temporary image is tracked in the state,
    every other path is answered by the environment. *)
Definition os_path_exists (env : Env) (path : string) : M bool :=
  fun s =>
    (Ret (if String.eqb path TEMP_IMAGE_PATH then temp_image s
          else path_exists env path),
     s, [PathExists path]).

(** [cv2.imwrite(path, frame)]: the file is there once the call answered
    [True]. *)
Definition imwrite (env : Env) (path : string) (f : frame) : M bool :=
  fun s =>
    match cv2_imwrite env path f with
    | Ret true =>
        (Ret true,
         if String.eqb path TEMP_IMAGE_PATH then set_temp_image true s else s,
         [Imwrite path])
    | Ret false => (Ret false, s, [Imwrite path])
    | Raise e => (Raise e, s, [Imwrite path])
    end.

(** [os.remove(path)]: the file is gone unless the call raised. *)
Definition remove (env : Env) (path : string) : M unit :=
  fun s =>
    match os_remove env path with
    | Ret _ =>
        (Ret tt,
         if String.eqb path TEMP_IMAGE_PATH then set_temp_image false s else s,
         [Remove path])
    | Raise e => (Raise e, s, [Remove path])
    end.

(** ** FrameCapture: [capture_single_frame] (lines 30-57) *)

Definition capture_body (env : Env) (index path : string) : M bool :=
  i <- lift (py_int env index) ;;
  emit (VideoCapture i) ;;
  cap <- lift (cv2_VideoCapture env i) ;;
  if negb (isOpened cap) then
    print (LogCannotOpen index) ;;
    ret false
  else
    emit (Sleep 1500) ;;
    emit CapRead ;;
    rf <- lift (read cap) ;;
    emit CapRelease ;;
    lift (release cap) ;;
    if fst rf then
      imwrite env path (snd rf) ;;
      print (LogFrameSaved path) ;;
      ret true
    else
      print LogReadFailed ;;
      ret false.

Definition capture_single_frame (env : Env) (index path : string) : M bool :=
  print (LogCaptureAttempt index) ;;
  try_except (capture_body env index path)
             (fun e => print (LogCaptureError e) ;; ret false).

(** ** ResultLocator: [get_latest_exp_folder] (lines 60-79) *)

(** [max(l, key=key)]: the first element whose key is the greatest; an
    exception of [key] propagates, and an empty list is a [ValueError]. *)
Fixpoint max_by_key (key : string -> result Z) (best : string) (kbest : Z)
         (l : list string) : result string :=
  match l with
  | [] => Ret best
  | f :: rest =>
      match key f with
      | Raise e => Raise e
      | Ret k =>
          if Z.gtb k kbest then max_by_key key f k rest
          else max_by_key key best kbest rest
      end
  end.

Definition py_max (key : string -> result Z) (l : list string)
  : result string :=
  match l with
  | [] => Raise ValueError
  | f :: rest =>
      match key f with
      | Raise e => Raise e
      | Ret k => max_by_key key f k rest
      end
  end.

(** The recency window of line 70: thirty seconds. *)
Definition RECENT_WINDOW : Z := 30000.

(** [[f for f in l if os.path.getctime(f) > time.time() - 30]]; the clock is
    read once per candidate, [k] counts the readings already made. *)
Fixpoint recent_files (env : Env) (k : nat) (l : list string)
  : result (list string) :=
  match l with
  | [] => Ret []
  | f :: rest =>
      match getctime env f with
      | Raise e => Raise e
      | Ret c =>
          match recent_files env (S k) rest with
          | Raise e => Raise e
          | Ret r =>
              Ret (if Z.gtb c (time_time env k - RECENT_WINDOW)
                   then f :: r else r)
          end
      end
  end.

(** Lines 66-75, once [glob] has answered. *)
Definition latest_of (env : Env) (list_of_files : list string)
  : result (option string) :=
  match list_of_files with
  | [] => Ret None
  | _ :: _ =>
      match recent_files env 0 list_of_files with
      | Raise e => Raise e
      | Ret [] =>
          match py_max (getctime env) list_of_files with
          | Raise e => Raise e
          | Ret f => Ret (Some f)
          end
      | Ret (r :: recent) =>
          match py_max (getctime env) (r :: recent) with
          | Raise e => Raise e
          | Ret f => Ret (Some f)
          end
      end
  end.

Definition exp_search_path : string :=
  path_join (path_join (path_join YOLO_ROOT_DIR "runs") "detect") "exp*".

Definition get_latest_exp_folder (env : Env) : M (option string) :=
  try_except
    (emit (Glob exp_search_path) ;;
     lift (latest_of env (glob_glob env exp_search_path)))
    (fun e => print (LogLatestFolderError e) ;; ret None).

(** ** EvidenceLocator: [get_saved_evidence_path] (lines 81-98) *)

Definition get_saved_evidence_path (env : Env) (exp_folder : string)
  : M (option string) :=
  let crops_dir := path_join (path_join exp_folder "crops") "person" in
  ex <- os_path_exists env crops_dir ;;
  let pattern := path_join crops_dir "*.jpg" in
  if ex then
    emit (Glob pattern) ;;
    match glob_glob env pattern with
    | [] => print LogNoCrop ;; ret None
    | c :: list_of_crops =>
        f <- lift (py_max (getctime env) (c :: list_of_crops)) ;;
        ret (Some f)
    end
  else
    print LogNoCrop ;; ret None.

(** ** ResultInspector: [check_for_person] (lines 100-131) *)

(** [\w] on ASCII text: letters, digits and the underscore. *)
Definition is_word (c : ascii) : bool :=
  let n := nat_of_ascii c in
  (((48 <=? n) && (n <=? 57)) || ((65 <=? n) && (n <=? 90))
   || ((97 <=? n) && (n <=? 122)) || (n =? 95))%nat.

Definition is_word_opt (c : option ascii) : bool :=
  match c with
  | Some a => is_word a
  | None => false
  end.

(** [\b] between the characters [prev] and [next]; outside the text counts
    as a non-word character. *)
Definition word_boundary (prev next : option ascii) : bool :=
  xorb (is_word_opt prev) (is_word_opt next).

Definition head_char (s : string) : option ascii :=
  match s with
  | EmptyString => None
  | String c _ => Some c
  end.

Fixpoint last_char (prev : option ascii) (s : string) : option ascii :=
  match s with
  | EmptyString => prev
  | String c r => last_char (Some c) r
  end.

Fixpoint strip_prefix (p s : string) : option string :=
  match p with
  | EmptyString => Some s
  | String a p' =>
      match s with
      | EmptyString => None
      | String b s' => if Ascii.eqb a b then strip_prefix p' s' else None
      end
  end.

(** Does [\b tok \b] match at the current position? *)
Definition match_here (tok : string) (prev : option ascii) (s : string) : bool :=
  word_boundary prev (head_char s) &&
  match strip_prefix tok s with
  | Some rest => word_boundary (last_char prev tok) (head_char rest)
  | None => false
  end.

Fixpoint search_from (tok : string) (prev : option ascii) (s : string) : bool :=
  match_here tok prev s ||
  match s with
  | EmptyString => false
  | String c r => search_from tok (Some c) r
  end.

(** [re.search(r'\b' + re.escape(tok) + r'\b', content)] is not [None]. *)
Definition re_search_word (tok content : string) : bool :=
  search_from tok None content.

(** [name.endswith(suffix)] *)
Definition endswith (name suffix : string) : bool :=
  (String.length suffix <=? String.length name)%nat &&
  String.eqb
    (substring (String.length name - String.length suffix)
               (String.length suffix) name)
    suffix.

(** The body of the [try] of lines 114-127 for one label file; [true] is
    the [return True] of line 127. *)
Definition inspect_label_file (env : Env) (labels_dir label_file : string)
  : M bool :=
  let file_path := path_join labels_dir label_file in
  emit (Getsize file_path) ;;
  size <- lift (getsize env file_path) ;;
  if (size =? 0)%nat then
    print (LogSkipEmpty label_file) ;; ret false
  else
    emit (OpenRead file_path) ;;
    content <- lift (read_text env file_path) ;;
    ret (re_search_word PERSON_CLASS_ID content).

(** The [for] loop of lines 112-129. *)
Fixpoint scan_label_files (env : Env) (labels_dir : string)
         (names : list string) : M bool :=
  match names with
  | [] => ret false
  | label_file :: rest =>
      if endswith label_file ".txt" then
        found <- try_except
                   (inspect_label_file env labels_dir label_file)
                   (fun e => print (LogLabelReadError label_file e) ;;
                             ret false) ;;
        if found then ret true else scan_label_files env labels_dir rest
      else scan_label_files env labels_dir rest
  end.

Definition check_for_person (env : Env) (exp_folder : string) : M bool :=
  let labels_dir := path_join exp_folder "labels" in
  ex <- os_path_exists env labels_dir ;;
  if negb ex then
    print LogNoLabelFolder ;; ret false
  else
    emit (Listdir labels_dir) ;;
    names <- lift (listdir env labels_dir) ;;
    scan_label_files env labels_dir names.

(** ** CycleOrchestrator: [start_yolo_detection] (lines 163-247) *)

Definition YOLO_COMMAND : list string :=
  ["python"; "detect.py"; "--weights"; "yolov5s.pt";
   "--source"; TEMP_IMAGE_PATH; "--conf"; "0.40";
   "--save-crop"; "--save-txt"; "--nosave"; "--hide-conf"; "--hide-labels"].

(** Lines 214-231: classification of the located folder and the alert. *)
Definition classify_and_alert (env : Env) (latest_folder : string) : M unit :=
  print (LogAnalyzing latest_folder) ;;
  person <- check_for_person env latest_folder ;;
  if person then
    evidence_path <- get_saved_evidence_path env latest_folder ;;
    print LogPersonDetected ;;
    match evidence_path with
    | Some p =>
        if String.eqb p "" then print LogNoEvidence
        else print (LogEvidenceSaved p)
    | None => print LogNoEvidence
    end ;;
    print LogSendingAlert
  else
    print LogNoPerson.

(** [process.wait()]: the call returns once the child has exited, and
    answers its exit status. *)
Definition process_wait (env : Env) : M Z :=
  fun s => (Ret (proc_wait env), s, [ProcWait (proc_wait env)]).

(** Lines 205-231: the output folder is located and, when there is one,
    classified. *)
Definition locate_and_inspect (env : Env) : M unit :=
  latest_folder <- get_latest_exp_folder env ;;
  match latest_folder with
  | None => print LogNoOutputFolder
  | Some folder =>
      if String.eqb folder "" then print LogNoOutputFolder
      else classify_and_alert env folder
  end.

(** The body of the [try] of lines 187-234.  The value of
    [process.wait()] is not bound to any name. *)
Definition detection_body (env : Env) : M unit :=
  print (LogExecuting YOLO_COMMAND) ;;
  emit (Popen YOLO_COMMAND) ;;
  lift (popen env YOLO_COMMAND) ;;
  print LogWaiting ;;
  process_wait env ;;
  print LogCompleted ;;
  emit (Sleep 500) ;;
  locate_and_inspect env.

(** The two [except] clauses of lines 236-239. *)
Definition detection_handler (e : exn) : M unit :=
  match e with
  | CalledProcessError => print (LogSubprocessError e)
  | _ => print (LogUnhandled e)
  end.

(** The [finally] clause of lines 240-247. *)
Definition cleanup (env : Env) : M unit :=
  ex <- os_path_exists env TEMP_IMAGE_PATH ;;
  (if ex then
     remove env TEMP_IMAGE_PATH ;;
     print (LogCleanedUp TEMP_IMAGE_PATH)
   else ret tt) ;;
  assign_is_detecting false ;;
  print LogStandby.

Definition start_yolo_detection (env : Env) : M unit :=
  ok <- capture_single_frame env CAMERA_INDEX TEMP_IMAGE_PATH ;;
  if negb ok then
    assign_is_detecting false ;;
    print LogNoFrame
  else
    try_finally (try_except (detection_body env) detection_handler)
                (cleanup env).

(** ** TriggerSource: [on_message] (lines 145-159) and the listening loop *)

(** An MQTT message; [payload_decode] is what [msg.payload.decode()]
    answers. *)
Record message : Type := {
  topic : string;
  payload_decode : result string
}.

Definition on_message (env : Env) (msg : message) : M unit :=
  payload_str <- lift (payload_decode msg) ;;
  print (LogReceived (topic msg) payload_str) ;;
  if String.eqb (topic msg) AI_TRIGGER_TOPIC
     && String.eqb payload_str "ACTIVATE" then
    s <- get_state ;;
    if negb (is_detecting s) then
      print LogTriggerReceived ;;
      assign_is_detecting true ;;
      start_yolo_detection env
    else
      print LogAlreadyRunning
  else ret tt.

(** [client.loop_forever()] hands the messages to [on_message] one after
    the other, each with the world as it is at that moment; an exception
    that leaves the callback ends the loop (lines 270-272 exit the
    process). *)
Fixpoint loop_forever (deliveries : list (Env * message)) : M unit :=
  match deliveries with
  | [] => ret tt
  | (env, msg) :: rest => on_message env msg ;; loop_forever rest
  end.

(** The message that starts a cycle. *)
Definition trigger : message :=
  {| topic := AI_TRIGGER_TOPIC; payload_decode := Ret "ACTIVATE" |}.

(** The process as it starts: line 26. *)
Definition initial_state (temp : bool) : State :=
  {| is_detecting := false; temp_image := temp |}.

(** ** Observations on traces *)

Definition is_flag_event (e : event) : bool :=
  match e with
  | SetDetecting _ => true
  | _ => false
  end.

(** The detector is launched or waited for. *)
Definition is_detector_event (e : event) : bool :=
  match e with
  | Popen _ | ProcWait _ => true
  | _ => false
  end.

(** The output folder is looked for, or its files are inspected. *)
Definition is_inspection_event (e : event) : bool :=
  match e with
  | Glob _ | Listdir _ | Getsize _ | OpenRead _ => true
  | _ => false
  end.

(** The alert of lines 219-227. *)
Definition is_alert (e : event) : bool :=
  match e with
  | Printed LogPersonDetected | Printed LogSendingAlert => true
  | _ => false
  end.

(** A label file is touched. *)
Definition is_file_access (e : event) : bool :=
  match e with
  | Getsize _ | OpenRead _ => true
  | _ => false
  end.

(** The events a camera capture can emit. *)
Definition is_capture_event (e : event) : bool :=
  match e with
  | Printed (LogCaptureAttempt _) | Printed (LogCannotOpen _)
  | Printed (LogFrameSaved _) | Printed LogReadFailed | Printed (LogCaptureError _)
  | VideoCapture _ | Sleep _ | CapRead | CapRelease | Imwrite _ => true
  | _ => false
  end.

(** Cycles in flight after a trace: triggers accepted (the flag set at
    line 156) less cycles released (the flag cleared at line 169 or 246). *)
Fixpoint in_flight (t : list event) : Z :=
  match t with
  | [] => 0
  | SetDetecting true :: r => in_flight r + 1
  | SetDetecting false :: r => in_flight r - 1
  | _ :: r => in_flight r
  end.

(** The result of a statement, its final state and its trace. *)
Definition result_of {A} (x : result A * State * list event) : result A :=
  fst (fst x).
Definition state_of {A} (x : result A * State * list event) : State :=
  snd (fst x).
Definition trace_of {A} (x : result A * State * list event) : list event :=
  snd x.

(** What the capture of a cycle answers in state [s]. *)
Definition capture_result (env : Env) (s : State) : result bool :=
  result_of (capture_single_frame env CAMERA_INDEX TEMP_IMAGE_PATH s).

(** ** The specification's reading of an annotation file *)

Definition newline : ascii := ascii_of_nat 10.
Definition is_blank (c : ascii) : bool :=
  let n := nat_of_ascii c in ((n =? 32) || (n =? 9) || (n =? 13))%nat.

(** The first line of a text and the lines after it. *)
Fixpoint split_lines (s : string) : string * list string :=
  match s with
  | EmptyString => (EmptyString, [])
  | String c r =>
      let (l, ls) := split_lines r in
      if Ascii.eqb c newline then (EmptyString, l :: ls) else (String c l, ls)
  end.

Definition lines (s : string) : list string :=
  let (l, ls) := split_lines s in l :: ls.

(** The characters of a line up to its first blank. *)
Fixpoint first_token (line : string) : string :=
  match line with
  | EmptyString => EmptyString
  | String c r => if is_blank c then EmptyString else String c (first_token r)
  end.

(** The class identifier [tok] is the first token of some line. *)
Definition class_at_line_start (tok content : string) : bool :=
  existsb (fun l => String.eqb (first_token l) tok) (lines content).

(** ** Concrete worlds *)

Definition working_camera : Capture :=
  {| isOpened := true; read := Ret (true, 7); release := Ret tt |}.
Definition busy_camera : Capture :=
  {| isOpened := false; read := Ret (false, 0); release := Ret tt |}.

(** A world in a few parameters: the camera, the detector, the output
    folders with their creation times, the clock, the files of the labels
    folder with their contents, and what [os.remove] does. *)
Record Scenario : Type := {
  sc_camera : result Capture;
  sc_launch : result unit;
  sc_status : Z;
  sc_runs : list (string * result Z);
  sc_now : Z;
  sc_labels : list (string * string);
  sc_remove : result unit
}.

Fixpoint lookup_ctime (runs : list (string * result Z)) (path : string)
  : result Z :=
  match runs with
  | [] => Ret 0%Z
  | (p, c) :: r => if String.eqb p path then c else lookup_ctime r path
  end.

Fixpoint lookup_label (labels : list (string * string)) (path : string)
  : result string :=
  match labels with
  | [] => Raise OSError
  | (n, c) :: r =>
      if endswith path ("/" ++ n) then Ret c else lookup_label r path
  end.

Definition env_of (sc : Scenario) : Env :=
  {| py_int := fun i => if String.eqb i "1" then Ret 1%Z else Raise ValueError;
     cv2_VideoCapture := fun _ => sc_camera sc;
     cv2_imwrite := fun _ _ => Ret true;
     popen := fun _ => sc_launch sc;
     proc_wait := sc_status sc;
     glob_glob := fun pattern =>
       if String.eqb pattern exp_search_path then map fst (sc_runs sc) else [];
     getctime := lookup_ctime (sc_runs sc);
     time_time := fun _ => sc_now sc;
     path_exists := fun _ => true;
     listdir := fun _ => Ret (map fst (sc_labels sc));
     getsize := fun p =>
       match lookup_label (sc_labels sc) p with
       | Ret c => Ret (String.length c)
       | Raise e => Raise e
       end;
     read_text := lookup_label (sc_labels sc);
     os_remove := fun _ => sc_remove sc |}.

Definition exp_old : string := "/yolov5/runs/detect/exp7".
Definition exp_new : string := "/yolov5/runs/detect/exp8".

(** The camera is held by another application. *)
Definition camera_busy_env : Env :=
  env_of {| sc_camera := Ret busy_camera; sc_launch := Ret tt; sc_status := 0;
            sc_runs := []; sc_now := 100000; sc_labels := [];
            sc_remove := Ret tt |}.

(** The detector exits with status 1 and writes nothing; the folder of an
    earlier run, with a person in it, is still on disk. *)
Definition detector_failed_env : Env :=
  env_of {| sc_camera := Ret working_camera; sc_launch := Ret tt;
            sc_status := 1;
            sc_runs := [(exp_old, Ret 55000%Z)]; sc_now := 100000;
            sc_labels := [("temp_capture.txt", "0 0.5 0.5 0.2 0.4")];
            sc_remove := Ret tt |}.

(** The detector found one bicycle (class 1) in the middle of the image. *)
Definition bicycle_env : Env :=
  env_of {| sc_camera := Ret working_camera; sc_launch := Ret tt;
            sc_status := 0;
            sc_runs := [(exp_new, Ret 95000%Z)]; sc_now := 100000;
            sc_labels := [("temp_capture.txt", "1 0.5 0.5 0.2 0.4")];
            sc_remove := Ret tt |}.

(** The annotation file of the specification's example. *)
Definition sample_env : Env :=
  env_of {| sc_camera := Ret working_camera; sc_launch := Ret tt;
            sc_status := 0;
            sc_runs := [(exp_new, Ret 95000%Z)]; sc_now := 100000;
            sc_labels := [("temp_capture.txt", "0 10 20 30 40")];
            sc_remove := Ret tt |}.

(** A zero-byte annotation file. *)
Definition empty_label_env : Env :=
  env_of {| sc_camera := Ret working_camera; sc_launch := Ret tt;
            sc_status := 0;
            sc_runs := [(exp_new, Ret 95000%Z)]; sc_now := 100000;
            sc_labels := [("temp_capture.txt", "")];
            sc_remove := Ret tt |}.

(** The labels folder holds only files that are not [.txt]. *)
Definition other_extension_env : Env :=
  env_of {| sc_camera := Ret working_camera; sc_launch := Ret tt;
            sc_status := 0;
            sc_runs := [(exp_new, Ret 95000%Z)]; sc_now := 100000;
            sc_labels := [("temp_capture.csv", "0 0.5 0.5 0.2 0.4");
                          ("temp_capture.txt.bak", "0 0.5 0.5 0.2 0.4")];
            sc_remove := Ret tt |}.

(** A 45-second-old and a 5-second-old output folder. *)
Definition two_runs_env : Env :=
  env_of {| sc_camera := Ret working_camera; sc_launch := Ret tt;
            sc_status := 0;
            sc_runs := [(exp_old, Ret 55000%Z); (exp_new, Ret 95000%Z)];
            sc_now := 100000; sc_labels := []; sc_remove := Ret tt |}.

(** The only output folder vanishes between [glob] and [getctime]. *)
Definition vanished_run_env : Env :=
  env_of {| sc_camera := Ret working_camera; sc_launch := Ret tt;
            sc_status := 0;
            sc_runs := [(exp_new, Raise OSError)];
            sc_now := 100000; sc_labels := []; sc_remove := Ret tt |}.

(** The captured image cannot be deleted (it is still held open). *)
Definition locked_image_env : Env :=
  env_of {| sc_camera := Ret working_camera; sc_launch := Ret tt;
            sc_status := 0; sc_runs := []; sc_now := 100000;
            sc_labels := []; sc_remove := Raise OSError |}.

(** The detector cannot be launched. *)
Definition launch_failure_env : Env :=
  env_of {| sc_camera := Ret working_camera; sc_launch := Raise OSError;
            sc_status := 0;
            sc_runs := [(exp_old, Ret 55000%Z)]; sc_now := 100000;
            sc_labels := [("temp_capture.txt", "0 0.5 0.5 0.2 0.4")];
            sc_remove := Ret tt |}.

Definition idle : State := initial_state false.
Definition detecting : State := {| is_detecting := true; temp_image := false |}.
Definition stale_image : State := {| is_detecting := true; temp_image := true |}.

(** The events of the stages between capture and cleanup: invocation,
    location of the output, inspection and alert. *)
Definition is_stage_event (e : event) : bool :=
  match e with
  | SetDetecting _ | Remove _ | Imwrite _ | VideoCapture _
  | CapRead | CapRelease => false
  | _ => true
  end.

(** The four ways a cycle can run, with the state it leaves and the shape
    of its trace: [pre] is emitted by the capture, [mid] by the stages
    behind it, and the rest by the clean-up or by lines 169-170.  [s1] is
    the state in which the capture ended. *)
Inductive cycle_run (env : Env) (s : State)
  : result unit * State * list event -> Prop :=
| CaptureFailed (pre : list event) :
    capture_result env s = Ret false ->
    forallb is_capture_event pre = true ->
    cycle_run env s
      (Ret tt, set_is_detecting false s,
       pre ++ [SetDetecting false; Printed LogNoFrame])
| ImageRemoved (pre mid : list event) :
    capture_result env s = Ret true ->
    forallb is_capture_event pre = true ->
    forallb is_stage_event mid = true ->
    cycle_run env s
      (Ret tt, {| is_detecting := false; temp_image := false |},
       pre ++ mid ++
       [PathExists TEMP_IMAGE_PATH; Remove TEMP_IMAGE_PATH;
        Printed (LogCleanedUp TEMP_IMAGE_PATH);
        SetDetecting false; Printed LogStandby])
| NoImage (pre mid : list event) :
    capture_result env s = Ret true ->
    forallb is_capture_event pre = true ->
    forallb is_stage_event mid = true ->
    cycle_run env s
      (Ret tt, {| is_detecting := false; temp_image := false |},
       pre ++ mid ++
       [PathExists TEMP_IMAGE_PATH; SetDetecting false; Printed LogStandby])
| RemoveRaised (pre mid : list event) (e : exn) :
    capture_result env s = Ret true ->
    forallb is_capture_event pre = true ->
    forallb is_stage_event mid = true ->
    os_remove env TEMP_IMAGE_PATH = Raise e ->
    cycle_run env s
      (Raise e, {| is_detecting := is_detecting s; temp_image := true |},
       pre ++ mid ++ [PathExists TEMP_IMAGE_PATH; Remove TEMP_IMAGE_PATH]).

(** The events of the clean-up step of lines 242-244. *)
Definition is_cleanup_event (e : event) : bool :=
  match e with
  | PathExists _ | Remove _ | Printed (LogCleanedUp _) => true
  | _ => false
  end.


(** Neither the detector, nor the inspection of its output, nor an alert. *)
Definition is_silent (e : event) : bool :=
  negb (is_detector_event e) && negb (is_inspection_event e)
  && negb (is_alert e).

(** The count of cycles in flight stays between 0 and 1 along the trace
    [t], when [n] cycles are in flight as [t] begins. *)
Definition bounded (n : Z) (t : list event) : Prop :=
  forall p q, t = p ++ q -> (0 <= n + in_flight p <= 1)%Z.

(** The candidate [f], created at [c], stands at position [i] of the
    listing [l] and passes the test of line 70 against the clock reading
    made for it. *)
Definition is_recent (env : Env) (l : list string) (i : nat) (f : string)
           (c : Z) : Prop :=
  nth_error l i = Some f /\ getctime env f = Ret c /\
  (c > time_time env i - RECENT_WINDOW)%Z.

(** The world [env] with another exit status of the detector. *)
Definition with_exit_status (env : Env) (status : Z) : Env :=
  {| py_int := py_int env;
     cv2_VideoCapture := cv2_VideoCapture env;
     cv2_imwrite := cv2_imwrite env;
     popen := popen env;
     proc_wait := status;
     glob_glob := glob_glob env;
     getctime := getctime env;
     time_time := time_time env;
     path_exists := path_exists env;
     listdir := listdir env;
     getsize := getsize env;
     read_text := read_text env;
     os_remove := os_remove env |}.

(** A statement is a [stage] when it leaves the state alone and emits only
    stage events. *)
Definition stage {A} (m : M A) : Prop :=
  forall s, state_of (m s) = s /\ forallb is_stage_event (trace_of (m s)) = true.

(** ** Further observations *)

(** The label file [name] of the folder [labels_dir] makes the loop of
    lines 112-129 return [True]: its name ends in [.txt], its size can be
    read and is not zero, its text can be read, and the regular expression
    of line 126 finds the class identifier in it. *)
Definition label_matches (env : Env) (labels_dir name : string) : bool :=
  endswith name ".txt" &&
  match getsize env (path_join labels_dir name) with
  | Ret O => false
  | Ret (S _) =>
      match read_text env (path_join labels_dir name) with
      | Ret content => re_search_word PERSON_CLASS_ID content
      | Raise _ => false
      end
  | Raise _ => false
  end.

(** Every event a statement emits satisfies [P], in every state. *)
Definition emits {A} (P : event -> bool) (m : M A) : Prop :=
  forall s, forallb P (trace_of (m s)) = true.

(** A trigger is accepted (line 156). *)
Definition is_accept_event (e : event) : bool :=
  match e with
  | SetDetecting true => true
  | _ => false
  end.

(** A trigger is turned away (line 159). *)
Definition is_reject_event (e : event) : bool :=
  match e with
  | Printed LogAlreadyRunning => true
  | _ => false
  end.

Definition is_print_event (e : event) : bool :=
  match e with
  | Printed _ => true
  | _ => false
  end.

Definition is_remove_event (e : event) : bool :=
  match e with
  | Remove _ => true
  | _ => false
  end.

(** The creation time of a candidate, compared with the window of line 70
    at the clock reading [now]; a time that cannot be read is not recent. *)
Definition within_window (env : Env) (now : Z) (f : string) : bool :=
  match getctime env f with
  | Ret c => Z.gtb c (now - RECENT_WINDOW)
  | Raise _ => false
  end.

(** The world [env] in which [cv2.imwrite] answers [r]. *)
Definition with_imwrite (env : Env) (r : result bool) : Env :=
  {| py_int := py_int env;
     cv2_VideoCapture := cv2_VideoCapture env;
     cv2_imwrite := fun _ _ => r;
     popen := popen env;
     proc_wait := proc_wait env;
     glob_glob := glob_glob env;
     getctime := getctime env;
     time_time := time_time env;
     path_exists := path_exists env;
     listdir := listdir env;
     getsize := getsize env;
     read_text := read_text env;
     os_remove := os_remove env |}.

(** The world [env] with the crops [crops] in every crops folder, each
    with its creation time. *)
Definition with_crops (env : Env) (crops : list (string * result Z)) : Env :=
  {| py_int := py_int env;
     cv2_VideoCapture := cv2_VideoCapture env;
     cv2_imwrite := cv2_imwrite env;
     popen := popen env;
     proc_wait := proc_wait env;
     glob_glob := fun pattern =>
       if endswith pattern "*.jpg" then map fst crops
       else glob_glob env pattern;
     getctime := fun path =>
       if endswith path ".jpg" then lookup_ctime crops path
       else getctime env path;
     time_time := time_time env;
     path_exists := path_exists env;
     listdir := listdir env;
     getsize := getsize env;
     read_text := read_text env;
     os_remove := os_remove env |}.

Definition crop_a : string := "/yolov5/runs/detect/exp8/crops/person/temp_capture.jpg".
Definition crop_b : string := "/yolov5/runs/detect/exp8/crops/person/temp_capture2.jpg".

(** A person, and two crops of it. *)
Definition two_crops_env : Env :=
  with_crops sample_env [(crop_a, Ret 96000%Z); (crop_b, Ret 97000%Z)].

(** A person, and a crop whose creation time cannot be read. *)
Definition lost_crop_env : Env :=
  with_crops sample_env [(crop_a, Raise OSError)].

(** The image writer answers [False]: nothing reaches the disk. *)
Definition unwritable_env : Env := with_imwrite sample_env (Ret false).

(** A message on the trigger topic whose payload is not valid text. *)
Definition garbled : message :=
  {| topic := AI_TRIGGER_TOPIC; payload_decode := Raise UnicodeDecodeError |}.

(** A message on the trigger topic with another payload. *)
Definition chatter : message :=
  {| topic := AI_TRIGGER_TOPIC; payload_decode := Ret "activate" |}.

(** The labels folder cannot be listed. *)
Definition unlistable_env : Env :=
  {| py_int := py_int sample_env;
     cv2_VideoCapture := cv2_VideoCapture sample_env;
     cv2_imwrite := cv2_imwrite sample_env;
     popen := popen sample_env;
     proc_wait := proc_wait sample_env;
     glob_glob := glob_glob sample_env;
     getctime := getctime sample_env;
     time_time := time_time sample_env;
     path_exists := path_exists sample_env;
     listdir := fun _ => Raise OSError;
     getsize := getsize sample_env;
     read_text := read_text sample_env;
     os_remove := os_remove sample_env |}.

(** A labels folder with an empty file, a car, a person, and one more
    file with a person. *)
Definition mixed_labels_env : Env :=
  env_of {| sc_camera := Ret working_camera; sc_launch := Ret tt;
            sc_status := 0;
            sc_runs := [(exp_new, Ret 95000%Z)]; sc_now := 100000;
            sc_labels := [("empty.txt", "");
                          ("car.txt", "2 1 1 1 1");
                          ("person.txt", "0 1 1 1 1");
                          ("later.txt", "0 1 1 1 1")];
            sc_remove := Ret tt |}.

(** The eight ways [capture_single_frame] can run, by the first call that
    does not go well, each with the answer, the state and the trace. *)
Inductive capture_outcome (env : Env) (index path : string) (s : State)
  : result bool * State * list event -> Prop :=
| BadIndex e :
    py_int env index = Raise e ->
    capture_outcome env index path s
      (Ret false, s,
       [Printed (LogCaptureAttempt index); Printed (LogCaptureError e)])
| OpenRaised i e :
    py_int env index = Ret i -> cv2_VideoCapture env i = Raise e ->
    capture_outcome env index path s
      (Ret false, s,
       [Printed (LogCaptureAttempt index); VideoCapture i;
        Printed (LogCaptureError e)])
| NotOpened i cap :
    py_int env index = Ret i -> cv2_VideoCapture env i = Ret cap ->
    isOpened cap = false ->
    capture_outcome env index path s
      (Ret false, s,
       [Printed (LogCaptureAttempt index); VideoCapture i;
        Printed (LogCannotOpen index)])
| ReadRaised i cap e :
    py_int env index = Ret i -> cv2_VideoCapture env i = Ret cap ->
    isOpened cap = true -> read cap = Raise e ->
    capture_outcome env index path s
      (Ret false, s,
       [Printed (LogCaptureAttempt index); VideoCapture i; Sleep 1500;
        CapRead; Printed (LogCaptureError e)])
| ReleaseRaised i cap rf e :
    py_int env index = Ret i -> cv2_VideoCapture env i = Ret cap ->
    isOpened cap = true -> read cap = Ret rf -> release cap = Raise e ->
    capture_outcome env index path s
      (Ret false, s,
       [Printed (LogCaptureAttempt index); VideoCapture i; Sleep 1500;
        CapRead; CapRelease; Printed (LogCaptureError e)])
| NoFrame i cap f :
    py_int env index = Ret i -> cv2_VideoCapture env i = Ret cap ->
    isOpened cap = true -> read cap = Ret (false, f) ->
    release cap = Ret tt ->
    capture_outcome env index path s
      (Ret false, s,
       [Printed (LogCaptureAttempt index); VideoCapture i; Sleep 1500;
        CapRead; CapRelease; Printed LogReadFailed])
| WriteRaised i cap f e :
    py_int env index = Ret i -> cv2_VideoCapture env i = Ret cap ->
    isOpened cap = true -> read cap = Ret (true, f) ->
    release cap = Ret tt -> cv2_imwrite env path f = Raise e ->
    capture_outcome env index path s
      (Ret false, s,
       [Printed (LogCaptureAttempt index); VideoCapture i; Sleep 1500;
        CapRead; CapRelease; Imwrite path; Printed (LogCaptureError e)])
| FrameSaved i cap f w :
    py_int env index = Ret i -> cv2_VideoCapture env i = Ret cap ->
    isOpened cap = true -> read cap = Ret (true, f) ->
    release cap = Ret tt -> cv2_imwrite env path f = Ret w ->
    capture_outcome env index path s
      (Ret true,
       (if w && String.eqb path TEMP_IMAGE_PATH
        then set_temp_image true s else s),
       [Printed (LogCaptureAttempt index); VideoCapture i; Sleep 1500;
        CapRead; CapRelease; Imwrite path; Printed (LogFrameSaved path)]).

(** The message is the one line 152 waits for. *)
Definition is_trigger (msg : message) : bool :=
  String.eqb (topic msg) AI_TRIGGER_TOPIC &&
  match payload_decode msg with
  | Ret payload_str => String.eqb payload_str "ACTIVATE"
  | Raise _ => false
  end.

(** * Properties *)

(** ** Reasoning about statements *)

Lemma run_bind {A B} (m : M A) (f : A -> M B) (s : State) :
  bind m f s =
  match m s with
  | (Ret a, s1, t1) => let '(r, s2, t2) := f a s1 in (r, s2, t1 ++ t2)
  | (Raise e, s1, t1) => (Raise e, s1, t1)
  end.
Proof. reflexivity. Qed.

Lemma stage_ret {A} (a : A) : stage (ret a).
Proof. intros s; split; reflexivity. Qed.

Lemma stage_lift {A} (r : result A) : stage (lift r).
Proof. intros s; split; reflexivity. Qed.

Lemma stage_emit e : is_stage_event e = true -> stage (emit e).
Proof. intros H s; split; [reflexivity | cbn; now rewrite H]. Qed.

Lemma stage_print m : stage (print m).
Proof. apply stage_emit; reflexivity. Qed.

Lemma stage_exists env path : stage (os_path_exists env path).
Proof. intros s; split; reflexivity. Qed.

Lemma stage_bind {A B} (m : M A) (f : A -> M B) :
  stage m -> (forall a, stage (f a)) -> stage (bind m f).
Proof.
  intros Hm Hf s. unfold bind.
  destruct (Hm s) as [Hs Ht]. unfold state_of, trace_of in *.
  destruct (m s) as [[[a | e] s1] t1]; cbn in *; subst s1.
  - destruct (Hf a s) as [Hs' Ht']. unfold state_of, trace_of in *.
    destruct (f a s) as [[r s2] t2]; cbn in *.
    split; [assumption | rewrite forallb_app, Ht, Ht'; reflexivity].
  - split; [reflexivity | assumption].
Qed.

Lemma stage_try_except {A} (m : M A) (h : exn -> M A) :
  stage m -> (forall e, stage (h e)) -> stage (try_except m h).
Proof.
  intros Hm Hh s. unfold try_except.
  destruct (Hm s) as [Hs Ht]. unfold state_of, trace_of in *.
  destruct (m s) as [[[a | e] s1] t1]; cbn in *; subst s1.
  - split; [reflexivity | assumption].
  - destruct (Hh e s) as [Hs' Ht']. unfold state_of, trace_of in *.
    destruct (h e s) as [[r s2] t2]; cbn in *.
    split; [assumption | rewrite forallb_app, Ht, Ht'; reflexivity].
Qed.

Create HintDb stage.
#[local] Hint Resolve stage_ret stage_lift stage_print stage_exists : stage.

(** Splits a statement into its parts, down to the primitive ones. *)
Ltac stage_step :=
  first
    [ solve [ auto with stage ]
    | apply stage_emit; reflexivity
    | match goal with
      | |- stage (let _ := _ in _) => cbv zeta
      | |- stage (if ?b then _ else _) => destruct b
      | |- stage (match ?x with _ => _ end) => destruct x
      end
    | apply stage_bind; [ | intros ? ]
    | apply stage_try_except; [ | intros ? ] ].
Ltac stages := repeat stage_step.

Lemma stage_scan_label_files env labels_dir names :
  stage (scan_label_files env labels_dir names).
Proof.
  induction names as [| label_file rest IH]; cbn [scan_label_files].
  - apply stage_ret.
  - destruct (endswith label_file ".txt"); [ | exact IH ].
    apply stage_bind.
    + unfold inspect_label_file. stages.
    + intros [ | ]; [ apply stage_ret | exact IH ].
Qed.

Lemma stage_check_for_person env exp_folder :
  stage (check_for_person env exp_folder).
Proof.
  unfold check_for_person.
  apply stage_bind; [ apply stage_exists | intros ex ].
  destruct (negb ex); [ stages | ].
  apply stage_bind; [ stages | intros _ ].
  apply stage_bind; [ stages | intros names ].
  apply stage_scan_label_files.
Qed.

Lemma stage_get_latest_exp_folder env : stage (get_latest_exp_folder env).
Proof. unfold get_latest_exp_folder. stages. Qed.

Lemma stage_get_saved_evidence_path env exp_folder :
  stage (get_saved_evidence_path env exp_folder).
Proof. unfold get_saved_evidence_path. stages. Qed.

#[local] Hint Resolve stage_check_for_person stage_get_latest_exp_folder
  stage_get_saved_evidence_path : stage.

Lemma stage_process_wait env : stage (process_wait env).
Proof. intros s; split; reflexivity. Qed.

#[local] Hint Resolve stage_process_wait : stage.

Lemma stage_detection_body env : stage (detection_body env).
Proof.
  unfold detection_body, locate_and_inspect, classify_and_alert. stages.
Qed.

Lemma stage_detection_handler e : stage (detection_handler e).
Proof. destruct e; apply stage_print. Qed.

Arguments TEMP_IMAGE_PATH : simpl never.
Arguments YOLO_COMMAND : simpl never.
Arguments exp_search_path : simpl never.

(** ** The stages of a cycle, one by one *)

(** The capture always answers a boolean; it emits capture events only,
    never touches the flag, cannot delete the image, and leaves the state
    as it found it when it answers [False]. *)
Lemma capture_run env index path s :
  exists b s1 t,
    capture_single_frame env index path s = (Ret b, s1, t) /\
    forallb is_capture_event t = true /\
    is_detecting s1 = is_detecting s /\
    (b = false -> s1 = s) /\
    (temp_image s = true -> temp_image s1 = true).
Proof.
  unfold capture_single_frame, capture_body, try_except, bind, print, emit,
    lift, ret, imwrite.
  destruct (py_int env index) as [i | e]; cbn;
    [ | now repeat eexists ].
  destruct (cv2_VideoCapture env i) as [cap | e]; cbn;
    [ | now repeat eexists ].
  destruct (isOpened cap); cbn; [ | now repeat eexists ].
  destruct (read cap) as [[ok f] | e]; cbn; [ | now repeat eexists ].
  destruct (release cap) as [u | e]; cbn; [ | now repeat eexists ].
  destruct ok; cbn; [ | now repeat eexists ].
  destruct (cv2_imwrite env path f) as [[ | ] | e]; cbn;
    try (now repeat eexists).
  destruct (String.eqb path TEMP_IMAGE_PATH); cbn.
  - do 3 eexists. split; [ reflexivity | ].
    repeat split; try reflexivity; discriminate.
  - do 3 eexists. split; [ reflexivity | ].
    repeat split; try reflexivity; try discriminate; auto.
Qed.

(** Invocation, location, inspection and alert, under the two [except]
    clauses: nothing is raised, and the state is left alone. *)
Lemma guarded_run env s :
  exists mid,
    try_except (detection_body env) detection_handler s = (Ret tt, s, mid) /\
    forallb is_stage_event mid = true.
Proof.
  destruct (stage_try_except (detection_body env) detection_handler
              (stage_detection_body env) stage_detection_handler s)
    as [Hs Ht].
  unfold state_of, trace_of in *.
  assert (Hr : exists u,
             result_of (try_except (detection_body env) detection_handler s)
             = Ret u).
  { unfold try_except, result_of.
    destruct (detection_body env s) as [[[a | e] s1] t1]; cbn.
    - now exists a.
    - destruct e; cbn; now exists tt. }
  destruct Hr as [[] Hr]. unfold result_of in Hr.
  destruct (try_except (detection_body env) detection_handler s)
    as [[r s2] mid]; cbn in *; subst.
  now exists mid.
Qed.

(** The [finally] clause, case by case. *)
Lemma cleanup_run env s :
  cleanup env s =
  if temp_image s then
    match os_remove env TEMP_IMAGE_PATH with
    | Ret _ =>
        (Ret tt, {| is_detecting := false; temp_image := false |},
         [PathExists TEMP_IMAGE_PATH; Remove TEMP_IMAGE_PATH;
          Printed (LogCleanedUp TEMP_IMAGE_PATH);
          SetDetecting false; Printed LogStandby])
    | Raise e =>
        (Raise e, s, [PathExists TEMP_IMAGE_PATH; Remove TEMP_IMAGE_PATH])
    end
  else
    (Ret tt, set_is_detecting false s,
     [PathExists TEMP_IMAGE_PATH; SetDetecting false; Printed LogStandby]).
Proof.
  unfold cleanup, bind, os_path_exists, remove, assign_is_detecting, print,
    emit, ret.
  rewrite String.eqb_refl.
  destruct (temp_image s); [ | reflexivity ].
  destruct (os_remove env TEMP_IMAGE_PATH); reflexivity.
Qed.

(** Every cycle runs in one of the four ways of [cycle_run]. *)
Lemma cycle_shape env s : cycle_run env s (start_yolo_detection env s).
Proof.
  unfold start_yolo_detection. rewrite run_bind.
  destruct (capture_run env CAMERA_INDEX TEMP_IMAGE_PATH s)
    as (b & s1 & pre & Hc & Hpre & Hflag & Hfail & Hkeep).
  assert (Hres : capture_result env s = Ret b)
    by (unfold capture_result; now rewrite Hc).
  rewrite Hc. destruct b; cbn [negb].
  - unfold try_finally.
    destruct (guarded_run env s1) as (mid & Hg & Hmid). rewrite Hg.
    rewrite cleanup_run.
    destruct s1 as [d1 [ | ]]; cbn in *; subst d1.
    + destruct (os_remove env TEMP_IMAGE_PATH) as [u | e] eqn:Hrm.
      * now apply ImageRemoved.
      * now apply RemoveRaised.
    + now apply NoImage.
  - rewrite (Hfail eq_refl). cbn.
    now apply CaptureFailed.
Qed.

(** An accepted trigger: the flag is set and the cycle runs. *)
Lemma on_message_accepts env s :
  is_detecting s = false ->
  on_message env trigger s =
  let '(r, s', t) := start_yolo_detection env (set_is_detecting true s) in
  (r, s',
   [Printed (LogReceived AI_TRIGGER_TOPIC "ACTIVATE"); Printed LogTriggerReceived;
    SetDetecting true] ++ t).
Proof.
  intros Hidle.
  unfold on_message, trigger, bind, lift, print, emit, get_state,
    assign_is_detecting. cbn.
  rewrite Hidle. cbn.
  destruct (start_yolo_detection env (set_is_detecting true s)) as [[r s'] t].
  reflexivity.
Qed.

(** A trigger met with the flag set: two lines are printed and nothing
    else happens. *)
Lemma on_message_rejects env s :
  is_detecting s = true ->
  on_message env trigger s =
  (Ret tt, s,
   [Printed (LogReceived AI_TRIGGER_TOPIC "ACTIVATE"); Printed LogAlreadyRunning]).
Proof.
  intros Hbusy.
  unfold on_message, trigger, bind, lift, print, emit, get_state. cbn.
  rewrite Hbusy. reflexivity.
Qed.

Lemma forallb_weaken {A} (P Q : A -> bool) (l : list A) :
  (forall a, P a = true -> Q a = true) ->
  forallb P l = true -> forallb Q l = true.
Proof.
  intros HPQ. induction l as [| a l IH]; cbn; [ reflexivity | ].
  intros H. apply andb_true_iff in H. destruct H as [Ha Hl].
  now rewrite (HPQ a Ha), (IH Hl).
Qed.

Lemma capture_event_silent e : is_capture_event e = true -> is_silent e = true.
Proof. destruct e as [[] | | | | | | | | | | | | | | ]; cbn; congruence. Qed.

Lemma capture_event_no_flag e :
  is_capture_event e = true -> negb (is_flag_event e) = true.
Proof. destruct e as [[] | | | | | | | | | | | | | | ]; cbn; congruence. Qed.

Lemma capture_event_no_cleanup e :
  is_capture_event e = true -> negb (is_cleanup_event e) = true.
Proof. destruct e as [[] | | | | | | | | | | | | | | ]; cbn; congruence. Qed.

Lemma stage_event_no_flag e :
  is_stage_event e = true -> negb (is_flag_event e) = true.
Proof. destruct e; cbn; congruence. Qed.

(** Containment, as far as it goes: when [os.remove] does not raise, the
    cycle returns normally with the flag cleared. *)
Lemma cycle_contained env s :
  os_remove env TEMP_IMAGE_PATH = Ret tt ->
  result_of (start_yolo_detection env s) = Ret tt /\
  is_detecting (state_of (start_yolo_detection env s)) = false.
Proof.
  intros Hrm. destruct (cycle_shape env s); cbn; auto. congruence.
Qed.

(** A detector that cannot be launched ends the cycle's work at once: the
    exception is printed and nothing is located, inspected or alerted. *)
Lemma launch_failure_aborts env s e :
  popen env YOLO_COMMAND = Raise e ->
  try_except (detection_body env) detection_handler s =
  (Ret tt, s,
   [Printed (LogExecuting YOLO_COMMAND); Popen YOLO_COMMAND;
    Printed (match e with
           | CalledProcessError => LogSubprocessError e
           | _ => LogUnhandled e
           end)]).
Proof.
  intros Hl.
  unfold try_except, detection_body, bind, print, emit, lift.
  rewrite Hl. destruct e; reflexivity.
Qed.

(** The same on a concrete world: the folder of an earlier run, with a
    person in it, is on disk, and is not looked at. *)
Lemma launch_failure_cycle :
  start_yolo_detection launch_failure_env detecting =
  (Ret tt, {| is_detecting := false; temp_image := false |},
   trace_of (capture_single_frame launch_failure_env CAMERA_INDEX
               TEMP_IMAGE_PATH detecting)
   ++ [Printed (LogExecuting YOLO_COMMAND); Popen YOLO_COMMAND;
       Printed (LogUnhandled OSError);
       PathExists TEMP_IMAGE_PATH; Remove TEMP_IMAGE_PATH;
       Printed (LogCleanedUp TEMP_IMAGE_PATH);
       SetDetecting false; Printed LogStandby]).
Proof. reflexivity. Qed.

(** The exit status of the detector reaches nothing but the trace. *)
Lemma recent_files_status env status l :
  forall k,
    recent_files (with_exit_status env status) k l = recent_files env k l.
Proof.
  induction l as [| f l IH]; intros k; [ reflexivity | ].
  cbn [recent_files]. rewrite IH. reflexivity.
Qed.

Lemma scan_label_files_status env status labels_dir names :
  forall s,
    scan_label_files (with_exit_status env status) labels_dir names s =
    scan_label_files env labels_dir names s.
Proof.
  induction names as [| label_file rest IH]; intros s; [ reflexivity | ].
  cbn [scan_label_files].
  destruct (endswith label_file ".txt"); [ | apply IH ].
  rewrite !run_bind.
  change (inspect_label_file (with_exit_status env status) labels_dir
            label_file)
    with (inspect_label_file env labels_dir label_file).
  destruct (try_except (inspect_label_file env labels_dir label_file)
              (fun e => print (LogLabelReadError label_file e);; ret false) s)
    as [[[[ | ] | e] s1] t1]; try reflexivity.
  now rewrite IH.
Qed.

Lemma locate_and_inspect_status env status s :
  locate_and_inspect (with_exit_status env status) s =
  locate_and_inspect env s.
Proof.
  assert (Hlatest : forall s0,
             get_latest_exp_folder (with_exit_status env status) s0
             = get_latest_exp_folder env s0).
  { intros s0.
    unfold get_latest_exp_folder, try_except, bind, emit, lift, latest_of.
    cbn [glob_glob getctime with_exit_status].
    rewrite recent_files_status. reflexivity. }
  assert (Hcheck : forall folder s0,
             check_for_person (with_exit_status env status) folder s0
             = check_for_person env folder s0).
  { intros folder s0. unfold check_for_person. rewrite !run_bind.
    change (os_path_exists (with_exit_status env status))
      with (os_path_exists env).
    destruct (os_path_exists env (path_join folder "labels") s0)
      as [[[ex | e] s1] t1]; [ | reflexivity ].
    destruct (negb ex); [ reflexivity | ].
    rewrite !run_bind.
    destruct (emit (Listdir (path_join folder "labels")) s1)
      as [[[u | e] s2] t2]; [ | reflexivity ].
    rewrite !run_bind. cbn [listdir with_exit_status].
    destruct (lift (listdir env (path_join folder "labels")) s2)
      as [[[names | e] s3] t3]; [ | reflexivity ].
    now rewrite scan_label_files_status. }
  unfold locate_and_inspect. rewrite !run_bind, Hlatest.
  destruct (get_latest_exp_folder env s) as [[[[folder | ] | e] s1] t1];
    try reflexivity.
  destruct (String.eqb folder ""); [ reflexivity | ].
  unfold classify_and_alert. rewrite !run_bind.
  destruct (print (LogAnalyzing folder) s1) as [[[u | e] s2] t2];
    [ | reflexivity ].
  rewrite !run_bind, Hcheck. reflexivity.
Qed.

(** After a launch that succeeded the cycle goes on to locate and inspect
    the output, whatever status the detector exits with: the status shows
    in the trace of [process.wait()] and nowhere else. *)
Lemma exit_status_is_dropped env status s :
  popen env YOLO_COMMAND = Ret tt ->
  detection_body (with_exit_status env status) s =
  let '(r, s', t) := locate_and_inspect env s in
  (r, s',
   [Printed (LogExecuting YOLO_COMMAND); Popen YOLO_COMMAND; Printed LogWaiting;
    ProcWait status; Printed LogCompleted; Sleep 500] ++ t).
Proof.
  intros Hl.
  unfold detection_body, bind, print, emit, lift, process_wait.
  cbn [popen proc_wait with_exit_status]. rewrite Hl.
  rewrite locate_and_inspect_status.
  destruct (locate_and_inspect env s) as [[r s'] t]. reflexivity.
Qed.

(** ** The claims *)

(** C10. [capture_single_frame] is total: for every device index, every
    destination path and every behaviour of the camera and of the image
    writer it answers a boolean and raises nothing; it answers [True] only
    when the index parsed, the device opened, the frame was read, the device
    was released and the image writer returned, so every exception of these
    calls ends in [False]. *)
Theorem capture_single_frame_total :
  forall env index path s,
  exists b s' t,
    capture_single_frame env index path s = (Ret b, s', t) /\
    (b = true ->
     exists i cap f w,
       py_int env index = Ret i /\
       cv2_VideoCapture env i = Ret cap /\
       isOpened cap = true /\
       read cap = Ret (true, f) /\
       release cap = Ret tt /\
       cv2_imwrite env path f = Ret w).
Proof.
  intros env index path s.
  unfold capture_single_frame, capture_body, try_except, bind, print, emit,
    lift, ret, imwrite.
  destruct (py_int env index) as [i | e] eqn:Hi; cbn;
    [ | do 3 eexists; split; [ reflexivity | discriminate ] ].
  destruct (cv2_VideoCapture env i) as [cap | e] eqn:Hcap; cbn;
    [ | do 3 eexists; split; [ reflexivity | discriminate ] ].
  destruct (isOpened cap) eqn:Hopen; cbn;
    [ | do 3 eexists; split; [ reflexivity | discriminate ] ].
  destruct (read cap) as [[ok f] | e] eqn:Hread; cbn;
    [ | do 3 eexists; split; [ reflexivity | discriminate ] ].
  destruct (release cap) as [[] | e] eqn:Hrel; cbn;
    [ | do 3 eexists; split; [ reflexivity | discriminate ] ].
  destruct ok; cbn;
    [ | do 3 eexists; split; [ reflexivity | discriminate ] ].
  destruct (cv2_imwrite env path f) as [w | e] eqn:Hw; cbn;
    [ | do 3 eexists; split; [ reflexivity | discriminate ] ].
  destruct w; do 3 eexists; (split; [ reflexivity | ]); intros _;
    exists i, cap, f; eexists; repeat split; eassumption.
Qed.

(** C5. When the frame capture fails, the cycle returns normally with
    [is_detecting] cleared, its state otherwise untouched, and its trace
    holds no launch of the detector, no wait for it, no look at its output
    and no alert; the next trigger is accepted. *)
Theorem capture_failure_aborts_cycle :
  forall env s,
    capture_result env s = Ret false ->
    exists t,
      start_yolo_detection env s = (Ret tt, set_is_detecting false s, t) /\
      forallb is_silent t = true /\
      forall env',
      exists t',
        trace_of (on_message env' trigger (set_is_detecting false s)) =
        Printed (LogReceived AI_TRIGGER_TOPIC "ACTIVATE")
        :: Printed LogTriggerReceived :: SetDetecting true :: t'.
Proof.
  intros env s Hfail.
  pose proof (cycle_shape env s) as Hrun.
  destruct Hrun as [pre Hc Hpre | pre mid Hc | pre mid Hc | pre mid e Hc];
    try congruence.
  exists (pre ++ [SetDetecting false; Printed LogNoFrame]).
  split; [ reflexivity | split ].
  - rewrite forallb_app.
    rewrite (forallb_weaken _ _ _ capture_event_silent Hpre). reflexivity.
  - intros env'. rewrite on_message_accepts by reflexivity.
    destruct (start_yolo_detection env'
                (set_is_detecting true (set_is_detecting false s)))
      as [[r s'] t'].
    now exists t'.
Qed.

(** The camera is busy: the capture fails and the cycle ends as C5 says. *)
Lemma capture_failure_aborts_cycle_witness :
  capture_result camera_busy_env detecting = Ret false /\
  exists t,
    start_yolo_detection camera_busy_env detecting
    = (Ret tt, set_is_detecting false detecting, t) /\
    forallb is_silent t = true /\
    forall env',
    exists t',
      trace_of (on_message env' trigger (set_is_detecting false detecting)) =
      Printed (LogReceived AI_TRIGGER_TOPIC "ACTIVATE")
      :: Printed LogTriggerReceived :: SetDetecting true :: t'.
Proof.
  split; [ reflexivity | ].
  apply (capture_failure_aborts_cycle camera_busy_env detecting).
  reflexivity.
Defined.

(** C3. The detector exits with status 1, and the cycle goes on as after a
    success: it prints that the process completed, locates the folder an
    earlier run left behind, inspects it and sends an alert.  The claim
    asks for an aborted cycle without location, inspection or alert. *)
Theorem nonzero_exit_is_not_checked :
  result_of (start_yolo_detection detector_failed_env detecting) = Ret tt /\
  filter (fun e => is_detector_event e || is_alert e)
         (trace_of (start_yolo_detection detector_failed_env detecting))
  = [Popen YOLO_COMMAND; ProcWait 1;
     Printed LogPersonDetected; Printed LogSendingAlert] /\
  existsb is_inspection_event
          (trace_of (start_yolo_detection detector_failed_env detecting))
  = true /\
  In (Printed LogCompleted)
     (trace_of (start_yolo_detection detector_failed_env detecting)).
Proof.
  repeat split; try reflexivity.
  vm_compute. tauto.
Qed.

(** C4, as stated, fails: an image left on disk by an interrupted run is
    still there after a cycle whose capture failed, because that path
    returns at line 171 without a clean-up. *)
Lemma stale_image_survives_capture_failure :
  capture_result camera_busy_env stale_image = Ret false /\
  result_of (start_yolo_detection camera_busy_env stale_image) = Ret tt /\
  temp_image (state_of (start_yolo_detection camera_busy_env stale_image))
  = true /\
  forallb (fun e => negb (is_cleanup_event e))
          (trace_of (start_yolo_detection camera_busy_env stale_image))
  = true.
Proof. repeat split; reflexivity. Qed.

(** C4, amended.  Provided [os.remove] does not raise: after a cycle whose
    capture succeeded, whatever the later stages did, the temporary image
    does not exist; a cycle whose capture failed runs no clean-up and leaves
    the image as it was before, so it is absent afterwards when it was
    absent before.  The image is written by the capture only. *)
Theorem temp_image_after_cycle :
  forall env s,
    os_remove env TEMP_IMAGE_PATH = Ret tt ->
    result_of (start_yolo_detection env s) = Ret tt /\
    (capture_result env s = Ret true ->
     temp_image (state_of (start_yolo_detection env s)) = false) /\
    (capture_result env s = Ret false ->
     temp_image (state_of (start_yolo_detection env s)) = temp_image s /\
     forallb (fun e => negb (is_cleanup_event e))
             (trace_of (start_yolo_detection env s)) = true) /\
    (temp_image s = false ->
     temp_image (state_of (start_yolo_detection env s)) = false).
Proof.
  intros env s Hrm.
  destruct (cycle_shape env s) as [pre Hc Hpre | pre mid Hc Hpre Hmid
                                  | pre mid Hc Hpre Hmid
                                  | pre mid e Hc Hpre Hmid He];
    cbn; try congruence.
  - repeat split; try congruence; auto.
    rewrite forallb_app.
    rewrite (forallb_weaken _ _ _ capture_event_no_cleanup Hpre). reflexivity.
  - repeat split; congruence.
  - repeat split; congruence.
Qed.

(** A cycle that captures an image and runs the detector: the image is
    gone afterwards. *)
Lemma temp_image_after_cycle_witness :
  os_remove two_runs_env TEMP_IMAGE_PATH = Ret tt /\
  capture_result two_runs_env idle = Ret true /\
  temp_image (state_of (start_yolo_detection two_runs_env idle)) = false.
Proof.
  split; [ reflexivity | split; [ reflexivity | ] ].
  exact (proj1 (proj2 (temp_image_after_cycle two_runs_env idle eq_refl))
               eq_refl).
Defined.




(** C8. The captured image cannot be deleted: [os.remove] raises inside
    the [finally] clause, where no handler stands.  The exception leaves
    [start_yolo_detection] and [on_message], the flag stays set, and the
    listening loop ends before the next trigger is looked at.  The claim
    asks that nothing escapes and that the service is idle afterwards. *)
Theorem cleanup_error_escapes :
  result_of (start_yolo_detection locked_image_env detecting) = Raise OSError /\
  is_detecting (state_of (start_yolo_detection locked_image_env detecting))
  = true /\
  result_of (on_message locked_image_env trigger idle) = Raise OSError /\
  result_of (loop_forever [(locked_image_env, trigger); (sample_env, trigger)]
                          idle) = Raise OSError /\
  existsb is_alert
    (trace_of (loop_forever [(locked_image_env, trigger); (sample_env, trigger)]
                            idle)) = false.
Proof. repeat split; reflexivity. Qed.

(** ** Counting the cycles in flight *)

Lemma in_flight_app t1 t2 :
  in_flight (t1 ++ t2) = (in_flight t1 + in_flight t2)%Z.
Proof.
  induction t1 as [| e t1 IH]; [ reflexivity | ].
  destruct e as [ | | | | | | | | | | | | | | [ | ]]; cbn; lia.
Qed.

Lemma in_flight_quiet t :
  forallb (fun e => negb (is_flag_event e)) t = true -> in_flight t = 0%Z.
Proof.
  induction t as [| e t IH]; [ reflexivity | ].
  destruct e; cbn; auto; discriminate.
Qed.

Lemma bounded_nil n : (0 <= n <= 1)%Z -> bounded n [].
Proof.
  intros Hn p q H. symmetry in H. apply app_eq_nil in H.
  destruct H as [-> _]. cbn. lia.
Qed.

Lemma bounded_cons n e t :
  (0 <= n <= 1)%Z -> bounded (n + in_flight [e]) t -> bounded n (e :: t).
Proof.
  intros Hn Ht [| e' p] q H; [ cbn; lia | ].
  cbn [app] in H. injection H as <- H.
  change (e :: p) with ([e] ++ p). rewrite in_flight_app.
  specialize (Ht p q H). lia.
Qed.

Lemma bounded_app n t1 t2 :
  bounded n t1 -> bounded (n + in_flight t1) t2 -> bounded n (t1 ++ t2).
Proof.
  intros H1 H2 p q H. symmetry in H.
  apply app_eq_app in H. destruct H as [l [[Hp Ht] | [Ht Hq]]].
  - subst p. rewrite in_flight_app. specialize (H2 l q Ht). lia.
  - exact (H1 p l Ht).
Qed.

Lemma bounded_quiet n t :
  (0 <= n <= 1)%Z ->
  forallb (fun e => negb (is_flag_event e)) t = true -> bounded n t.
Proof.
  intros Hn Hq p q ->. rewrite forallb_app in Hq.
  apply andb_true_iff in Hq. destruct Hq as [Hp _].
  rewrite (in_flight_quiet p Hp). lia.
Qed.

(** A cycle started with the flag set releases it at most once and never
    sets it. *)
Lemma cycle_in_flight env s :
  is_detecting s = true ->
  bounded 1 (trace_of (start_yolo_detection env s)) /\
  Z.b2z (is_detecting (state_of (start_yolo_detection env s)))
  = (1 + in_flight (trace_of (start_yolo_detection env s)))%Z.
Proof.
  intros Hbusy.
  destruct (cycle_shape env s) as [pre Hc Hpre | pre mid Hc Hpre Hmid
                                  | pre mid Hc Hpre Hmid
                                  | pre mid e Hc Hpre Hmid He];
    cbn [trace_of state_of fst snd is_detecting set_is_detecting].
  - pose proof (forallb_weaken _ _ _ capture_event_no_flag Hpre) as Hq.
    split.
    + apply bounded_app; [ apply bounded_quiet; [ lia | exact Hq ] | ].
      rewrite (in_flight_quiet pre Hq).
      repeat (apply bounded_cons; [ cbn; lia | ]). apply bounded_nil. cbn. lia.
    + rewrite in_flight_app, (in_flight_quiet pre Hq). reflexivity.
  - pose proof (forallb_weaken _ _ _ capture_event_no_flag Hpre) as Hq.
    pose proof (forallb_weaken _ _ _ stage_event_no_flag Hmid) as Hq'.
    split.
    + apply bounded_app; [ apply bounded_quiet; [ lia | exact Hq ] | ].
      rewrite (in_flight_quiet pre Hq).
      apply bounded_app; [ apply bounded_quiet; [ lia | exact Hq' ] | ].
      rewrite (in_flight_quiet mid Hq').
      repeat (apply bounded_cons; [ cbn; lia | ]). apply bounded_nil. cbn. lia.
    + rewrite !in_flight_app, (in_flight_quiet pre Hq),
        (in_flight_quiet mid Hq'). reflexivity.
  - pose proof (forallb_weaken _ _ _ capture_event_no_flag Hpre) as Hq.
    pose proof (forallb_weaken _ _ _ stage_event_no_flag Hmid) as Hq'.
    split.
    + apply bounded_app; [ apply bounded_quiet; [ lia | exact Hq ] | ].
      rewrite (in_flight_quiet pre Hq).
      apply bounded_app; [ apply bounded_quiet; [ lia | exact Hq' ] | ].
      rewrite (in_flight_quiet mid Hq').
      repeat (apply bounded_cons; [ cbn; lia | ]). apply bounded_nil. cbn. lia.
    + rewrite !in_flight_app, (in_flight_quiet pre Hq),
        (in_flight_quiet mid Hq'). reflexivity.
  - pose proof (forallb_weaken _ _ _ capture_event_no_flag Hpre) as Hq.
    pose proof (forallb_weaken _ _ _ stage_event_no_flag Hmid) as Hq'.
    rewrite Hbusy. split.
    + apply bounded_app; [ apply bounded_quiet; [ lia | exact Hq ] | ].
      rewrite (in_flight_quiet pre Hq).
      apply bounded_app; [ apply bounded_quiet; [ lia | exact Hq' ] | ].
      rewrite (in_flight_quiet mid Hq').
      repeat (apply bounded_cons; [ cbn; lia | ]). apply bounded_nil. cbn. lia.
    + rewrite !in_flight_app, (in_flight_quiet pre Hq),
        (in_flight_quiet mid Hq'). reflexivity.
Qed.

(** One delivery keeps the count within bounds, and the flag counts the
    cycles in flight afterwards. *)
Lemma on_message_in_flight env msg s :
  bounded (Z.b2z (is_detecting s)) (trace_of (on_message env msg s)) /\
  Z.b2z (is_detecting (state_of (on_message env msg s)))
  = (Z.b2z (is_detecting s) + in_flight (trace_of (on_message env msg s)))%Z.
Proof.
  assert (Hb : (0 <= Z.b2z (is_detecting s) <= 1)%Z)
    by (destruct (is_detecting s); cbn; lia).
  unfold on_message, bind, lift, print, emit, get_state, ret,
    assign_is_detecting.
  destruct (payload_decode msg) as [payload_str | e]; cbn;
    [ | split; [ now apply bounded_nil | lia ] ].
  destruct (String.eqb (topic msg) AI_TRIGGER_TOPIC
            && String.eqb payload_str "ACTIVATE"); cbn;
    [ | split; [ apply bounded_quiet; [ lia | reflexivity ] | lia ] ].
  destruct (is_detecting s) eqn:Hd; cbn.
  { rewrite Hd. split; [ apply bounded_quiet; [ cbn; lia | reflexivity ] | ].
    reflexivity. }
  destruct (cycle_in_flight env (set_is_detecting true s) eq_refl)
    as [Hbound Hcount].
  destruct (start_yolo_detection env (set_is_detecting true s))
    as [[r s'] t]; cbn [trace_of state_of fst snd] in *.
  split.
  - repeat (apply bounded_cons; [ cbn; lia | ]). exact Hbound.
  - rewrite Hcount. cbn [in_flight]. lia.
Qed.

Lemma loop_in_flight deliveries :
  forall s,
    bounded (Z.b2z (is_detecting s)) (trace_of (loop_forever deliveries s)).
Proof.
  induction deliveries as [| [env msg] rest IH]; intros s.
  - apply bounded_nil. destruct (is_detecting s); cbn; lia.
  - cbn [loop_forever]. rewrite run_bind.
    destruct (on_message_in_flight env msg s) as [Hbound Hcount].
    destruct (on_message env msg s) as [[[u | e] s1] t1]; cbn in *;
      [ | exact Hbound ].
    specialize (IH s1).
    destruct (loop_forever rest s1) as [[r s2] t2]; cbn in *.
    apply bounded_app; [ exact Hbound | ].
    rewrite <- Hcount. exact IH.
Qed.

(** What the serial loop gives.  Whatever messages are delivered, with
    whatever worlds, the number of cycles in flight (triggers accepted less
    cycles released) is 0 or 1 after every prefix of the trace of the
    listening loop: [on_message] returns only when the cycle it started is
    over.  The branch of line 159, for a state in which it is taken: two
    lines are printed and the state is as before. *)
Theorem single_flight :
  (forall deliveries temp p q,
     trace_of (loop_forever deliveries (initial_state temp)) = p ++ q ->
     (0 <= in_flight p <= 1)%Z) /\
  (forall env s,
     is_detecting s = true ->
     on_message env trigger s =
     (Ret tt, s,
      [Printed (LogReceived AI_TRIGGER_TOPIC "ACTIVATE");
       Printed LogAlreadyRunning])) /\
  (forall env rest s,
     is_detecting s = true ->
     loop_forever ((env, trigger) :: rest) s =
     let '(r, s', t) := loop_forever rest s in
     (r, s',
      [Printed (LogReceived AI_TRIGGER_TOPIC "ACTIVATE");
       Printed LogAlreadyRunning] ++ t)).
Proof.
  split; [ | split ].
  - intros deliveries temp p q H.
    exact (loop_in_flight deliveries (initial_state temp) p q H).
  - exact on_message_rejects.
  - intros env rest s Hbusy. cbn [loop_forever]. rewrite run_bind.
    rewrite (on_message_rejects env s Hbusy).
    destruct (loop_forever rest s) as [[r s'] t]. reflexivity.
Qed.

(** Three triggers in a row, the second world with a busy camera: the
    count after the first twenty events; a trigger met with the flag set;
    and the loop after such a trigger. *)
Lemma single_flight_witness :
  (0 <= in_flight
          (firstn 20
             (trace_of
                (loop_forever
                   [(sample_env, trigger); (camera_busy_env, trigger);
                    (bicycle_env, trigger)] (initial_state false)))) <= 1)%Z /\
  on_message sample_env trigger detecting =
  (Ret tt, detecting,
   [Printed (LogReceived AI_TRIGGER_TOPIC "ACTIVATE"); Printed LogAlreadyRunning]) /\
  loop_forever [(sample_env, trigger); (empty_label_env, trigger)] detecting =
  (let '(r, s', t) := loop_forever [(empty_label_env, trigger)] detecting in
   (r, s',
    [Printed (LogReceived AI_TRIGGER_TOPIC "ACTIVATE"); Printed LogAlreadyRunning]
    ++ t)).
Proof.
  split; [ | split ].
  - apply (proj1 single_flight
             [(sample_env, trigger); (camera_busy_env, trigger);
              (bicycle_env, trigger)] false
             (firstn 20
                (trace_of
                   (loop_forever
                      [(sample_env, trigger); (camera_busy_env, trigger);
                       (bicycle_env, trigger)] (initial_state false))))
             (skipn 20
                (trace_of
                   (loop_forever
                      [(sample_env, trigger); (camera_busy_env, trigger);
                       (bicycle_env, trigger)] (initial_state false))))).
    symmetry. apply firstn_skipn.
  - apply (proj1 (proj2 single_flight) sample_env detecting). reflexivity.
  - apply (proj2 (proj2 single_flight) sample_env
             [(empty_label_env, trigger)] detecting).
    reflexivity.
Defined.

(** ** The inspector and the annotation files *)

Lemma blank_not_word c : is_blank c = true -> is_word c = false.
Proof.
  destruct c as [[] [] [] [] [] [] [] []]; vm_compute; congruence.
Qed.

(** A line without a first token is empty or starts with a blank, so the
    text at that point starts with a character that is not a word
    character, or ends. *)
Lemma empty_first_token r :
  first_token (fst (split_lines r)) = EmptyString ->
  is_word_opt (head_char r) = false.
Proof.
  destruct r as [| c r]; [ reflexivity | ].
  cbn [split_lines]. destruct (split_lines r) as [l ls].
  destruct (Ascii.eqb c newline) eqn:Hc; cbn.
  - apply Ascii.eqb_eq in Hc. subst c. intros _. reflexivity.
  - destruct (is_blank c) eqn:Hb; [ | discriminate ].
    intros _. now apply blank_not_word.
Qed.

(** The class identifier as the first token of the first line is found by
    the regular expression, when no word character stands before it. *)
Lemma first_line_match s prev :
  is_word_opt prev = false ->
  String.eqb (first_token (fst (split_lines s))) PERSON_CLASS_ID = true ->
  match_here PERSON_CLASS_ID prev s = true.
Proof.
  intros Hprev H. apply String.eqb_eq in H.
  destruct s as [| c r]; [ discriminate H | ].
  cbn [split_lines] in H.
  pose proof (empty_first_token r) as Hrest.
  destruct (split_lines r) as [l ls].
  destruct (Ascii.eqb c newline) eqn:Hc; [ discriminate H | ].
  cbn [fst first_token] in H, Hrest.
  destruct (is_blank c); [ discriminate H | ].
  unfold PERSON_CLASS_ID in H. injection H as Hc0 Hl. subst c.
  specialize (Hrest Hl).
  unfold match_here, PERSON_CLASS_ID, word_boundary.
  cbn [head_char strip_prefix last_char]. rewrite Hprev.
  cbn. rewrite Hrest. reflexivity.
Qed.

Lemma match_here_search tok prev s :
  match_here tok prev s = true -> search_from tok prev s = true.
Proof. intros H. destruct s; cbn [search_from]; now rewrite H. Qed.

(** The same on a later line. *)
Lemma later_line_match s :
  forall prev,
    existsb (fun l => String.eqb (first_token l) PERSON_CLASS_ID)
            (snd (split_lines s)) = true ->
    search_from PERSON_CLASS_ID prev s = true.
Proof.
  induction s as [| c r IH]; intros prev H; [ discriminate H | ].
  cbn [split_lines] in H. cbn [search_from].
  apply orb_true_iff. right.
  pose proof (first_line_match r (Some c)) as Hfirst.
  destruct (split_lines r) as [l ls] eqn:Hsplit.
  destruct (Ascii.eqb c newline) eqn:Hc; cbn [snd fst] in *.
  - apply Ascii.eqb_eq in Hc. subst c.
    cbn [existsb] in H. apply orb_true_iff in H. destruct H as [H | H].
    + apply match_here_search. apply Hfirst; [ reflexivity | exact H ].
    + apply IH. exact H.
  - apply IH. exact H.
Qed.

(** The half of C2 that holds: whenever the class identifier is the first
    token of a line, the regular expression of line 126 finds it. *)
Lemma line_start_is_found content :
  class_at_line_start PERSON_CLASS_ID content = true ->
  re_search_word PERSON_CLASS_ID content = true.
Proof.
  unfold class_at_line_start, lines, re_search_word. intros H.
  pose proof (first_line_match content None eq_refl) as Hfirst.
  pose proof (later_line_match content None) as Hlater.
  destruct (split_lines content) as [l ls]. cbn [fst snd existsb] in *.
  apply orb_true_iff in H. destruct H as [H | H].
  - apply match_here_search. now apply Hfirst.
  - now apply Hlater.
Qed.

(** The two examples of the specification: [0 10 20 30 40] is a person,
    and a zero-byte file is skipped without an error. *)
Lemma sample_annotation_is_person :
  check_for_person sample_env exp_new detecting =
  (Ret true, detecting,
   [PathExists (path_join exp_new "labels");
    Listdir (path_join exp_new "labels");
    Getsize (path_join (path_join exp_new "labels") "temp_capture.txt");
    OpenRead (path_join (path_join exp_new "labels") "temp_capture.txt")]).
Proof. reflexivity. Qed.

Lemma empty_annotation_is_no_person :
  check_for_person empty_label_env exp_new detecting =
  (Ret false, detecting,
   [PathExists (path_join exp_new "labels");
    Listdir (path_join exp_new "labels");
    Getsize (path_join (path_join exp_new "labels") "temp_capture.txt");
    Printed (LogSkipEmpty "temp_capture.txt")]).
Proof. reflexivity. Qed.

(** C2. The detector reports one bicycle, [1 0.5 0.5 0.2 0.4]: class 0 is
    the first token of no line, yet the regular expression matches the
    [0] in front of the decimal point of a coordinate, so
    [check_for_person] answers [True] and the cycle sends an alert.  The
    claim asks for [True] only when the identifier starts a line. *)
Theorem coordinate_zero_counts_as_person :
  class_at_line_start PERSON_CLASS_ID "1 0.5 0.5 0.2 0.4" = false /\
  re_search_word PERSON_CLASS_ID "1 0.5 0.5 0.2 0.4" = true /\
  result_of (check_for_person bicycle_env exp_new detecting) = Ret true /\
  filter is_alert (trace_of (start_yolo_detection bicycle_env detecting))
  = [Printed LogPersonDetected; Printed LogSendingAlert].
Proof. repeat split; reflexivity. Qed.

Lemma filter_none {A} (f : A -> bool) (l : list A) :
  (forall a, In a l -> f a = false) -> filter f l = [].
Proof.
  induction l as [| a l IH]; intros H; [ reflexivity | ].
  cbn. rewrite (H a (or_introl eq_refl)).
  apply IH. intros b Hb. apply H. now right.
Qed.

Lemma scan_only_txt env labels_dir names :
  forall s,
    scan_label_files env labels_dir names s =
    scan_label_files env labels_dir
      (filter (fun n => endswith n ".txt") names) s.
Proof.
  induction names as [| label_file rest IH]; intros s; [ reflexivity | ].
  cbn [scan_label_files filter].
  destruct (endswith label_file ".txt") eqn:Htxt; [ | apply IH ].
  cbn [scan_label_files]. rewrite Htxt, !run_bind.
  destruct (try_except (inspect_label_file env labels_dir label_file)
              (fun e => print (LogLabelReadError label_file e);; ret false) s)
    as [[[[ | ] | e] s1] t1]; try reflexivity.
  now rewrite IH.
Qed.

(** C9. Only the names that end in [.txt] count: scanning a listing is
    the same statement, with the same result, state and trace, as scanning
    its [.txt] names alone; and a labels folder that lists no [.txt] name
    yields [False] without a single file being sized or opened, whatever
    the files hold. *)
Theorem non_txt_files_are_ignored :
  (forall env labels_dir names s,
     scan_label_files env labels_dir names s =
     scan_label_files env labels_dir
       (filter (fun n => endswith n ".txt") names) s) /\
  (forall env exp_folder names s,
     listdir env (path_join exp_folder "labels") = Ret names ->
     (forall n, In n names -> endswith n ".txt" = false) ->
     result_of (check_for_person env exp_folder s) = Ret false /\
     forallb (fun e => negb (is_file_access e))
             (trace_of (check_for_person env exp_folder s)) = true).
Proof.
  split; [ exact scan_only_txt | ].
  intros env exp_folder names s Hls Hnone.
  unfold check_for_person, bind, os_path_exists, emit, print, lift, ret.
  destruct (if String.eqb (path_join exp_folder "labels") TEMP_IMAGE_PATH
            then temp_image s
            else path_exists env (path_join exp_folder "labels"));
    cbn; [ | split; reflexivity ].
  rewrite Hls. rewrite scan_only_txt, (filter_none _ _ Hnone).
  cbn. split; reflexivity.
Qed.

(** A labels folder with a [.csv] and a [.txt.bak] file, both naming
    class 0 at the start of their line. *)
Lemma non_txt_files_are_ignored_witness :
  listdir other_extension_env (path_join exp_new "labels")
  = Ret ["temp_capture.csv"; "temp_capture.txt.bak"] /\
  read_text other_extension_env
    (path_join (path_join exp_new "labels") "temp_capture.csv")
  = Ret "0 0.5 0.5 0.2 0.4" /\
  result_of (check_for_person other_extension_env exp_new detecting)
  = Ret false /\
  forallb (fun e => negb (is_file_access e))
          (trace_of (check_for_person other_extension_env exp_new detecting))
  = true.
Proof.
  split; [ reflexivity | split; [ reflexivity | ] ].
  apply (proj2 non_txt_files_are_ignored other_extension_env exp_new
           ["temp_capture.csv"; "temp_capture.txt.bak"] detecting).
  - reflexivity.
  - intros n [<- | [<- | []]]; reflexivity.
Defined.

(** ** The locator *)

Lemma max_by_key_spec key l :
  forall best kbest,
    key best = Ret kbest ->
    (forall f, In f l -> exists c, key f = Ret c) ->
    exists r kr,
      max_by_key key best kbest l = Ret r /\
      (r = best \/ In r l) /\ key r = Ret kr /\ (kbest <= kr)%Z /\
      forall f c, In f l -> key f = Ret c -> (c <= kr)%Z.
Proof.
  induction l as [| f l IH]; intros best kbest Hbest Hall.
  - exists best, kbest. cbn. repeat split; auto; try lia; contradiction.
  - destruct (Hall f (or_introl eq_refl)) as [k Hk].
    cbn [max_by_key]. rewrite Hk.
    assert (Hall' : forall g, In g l -> exists c, key g = Ret c)
      by (intros g Hg; apply Hall; now right).
    destruct (Z.gtb_spec k kbest) as [Hgt | Hle].
    + destruct (IH f k Hk Hall') as (r & kr & Hr & Hin & Hkr & Hge & Hmax).
      exists r, kr. repeat split; auto; try lia.
      * destruct Hin as [-> | Hin]; [ right; now left | right; now right ].
      * intros g c [<- | Hg] Hc; [ | eauto ].
        rewrite Hk in Hc. injection Hc as <-. exact Hge.
    + destruct (IH best kbest Hbest Hall')
        as (r & kr & Hr & Hin & Hkr & Hge & Hmax).
      exists r, kr. repeat split; auto.
      * destruct Hin as [-> | Hin]; [ now left | right; now right ].
      * intros g c [<- | Hg] Hc; [ | eauto ].
        rewrite Hk in Hc. injection Hc as <-. lia.
Qed.

(** [max] over a non-empty list whose keys can all be read: an element of
    the list with the greatest key. *)
Lemma py_max_spec key f l :
  (forall g, In g (f :: l) -> exists c, key g = Ret c) ->
  exists r kr,
    py_max key (f :: l) = Ret r /\ In r (f :: l) /\ key r = Ret kr /\
    forall g c, In g (f :: l) -> key g = Ret c -> (c <= kr)%Z.
Proof.
  intros Hall. destruct (Hall f (or_introl eq_refl)) as [k Hk].
  cbn [py_max]. rewrite Hk.
  destruct (max_by_key_spec key l f k Hk) as (r & kr & Hr & Hin & Hkr & Hge & Hmax).
  { intros g Hg. apply Hall. now right. }
  exists r, kr. repeat split; auto.
  - destruct Hin as [-> | Hin]; [ now left | now right ].
  - intros g c [<- | Hg] Hc; [ | eauto ].
    rewrite Hk in Hc. injection Hc as <-. exact Hge.
Qed.

(** The comprehension of line 70 raises exactly when some creation time
    cannot be read. *)
Lemma recent_files_raise env l :
  forall k e,
    recent_files env k l = Raise e ->
    exists f e', In f l /\ getctime env f = Raise e'.
Proof.
  induction l as [| f l IH]; intros k e H; [ discriminate H | ].
  cbn [recent_files] in H.
  destruct (getctime env f) as [c | e1] eqn:Hc.
  - destruct (recent_files env (S k) l) as [r | e2] eqn:Hr; [ discriminate H | ].
    destruct (IH (S k) e2 Hr) as (g & e' & Hg & He').
    exists g, e'. split; [ now right | exact He' ].
  - exists f, e1. split; [ now left | exact Hc ].
Qed.

Lemma recent_files_readable env l :
  forall k r,
    recent_files env k l = Ret r ->
    forall f, In f l -> exists c, getctime env f = Ret c.
Proof.
  induction l as [| f l IH]; intros k r H g Hg; [ destruct Hg | ].
  cbn [recent_files] in H.
  destruct (getctime env f) as [c | e1] eqn:Hc; [ | discriminate H ].
  destruct (recent_files env (S k) l) as [r' | e2] eqn:Hr; [ | discriminate H ].
  destruct Hg as [<- | Hg]; [ now exists c | exact (IH (S k) r' Hr g Hg) ].
Qed.

(** The comprehension keeps the candidates that pass the test, each
    against its own clock reading. *)
Lemma recent_files_spec env l :
  forall k r,
    recent_files env k l = Ret r ->
    forall f,
      In f r <->
      exists i c, nth_error l i = Some f /\ getctime env f = Ret c /\
                  (c > time_time env (k + i) - RECENT_WINDOW)%Z.
Proof.
  induction l as [| f l IH]; intros k r H g.
  - injection H as <-. split; [ intros [] | ].
    intros ([ | i] & c & Hn & _); discriminate Hn.
  - cbn [recent_files] in H.
    destruct (getctime env f) as [c | e1] eqn:Hc; [ | discriminate H ].
    destruct (recent_files env (S k) l) as [r' | e2] eqn:Hr; [ | discriminate H ].
    injection H as <-. specialize (IH (S k) r' Hr g).
    destruct (Z.gtb_spec c (time_time env k - RECENT_WINDOW)) as [Hgt | Hle].
    + split.
      * intros [<- | Hin].
        -- exists 0%nat, c. rewrite Nat.add_0_r. repeat split; auto. lia.
        -- apply IH in Hin. destruct Hin as (i & c' & Hn & Hc' & Hlt).
           exists (S i), c'. rewrite Nat.add_succ_r. now repeat split.
      * intros ([ | i] & c' & Hn & Hc' & Hlt).
        -- injection Hn as <-. now left.
        -- right. apply IH. exists i, c'. rewrite Nat.add_succ_r in Hlt.
           now repeat split.
    + split.
      * intros Hin. apply IH in Hin. destruct Hin as (i & c' & Hn & Hc' & Hlt).
        exists (S i), c'. rewrite Nat.add_succ_r. now repeat split.
      * intros ([ | i] & c' & Hn & Hc' & Hlt).
        -- injection Hn as <-. rewrite Hc in Hc'. injection Hc' as <-.
           rewrite Nat.add_0_r in Hlt. lia.
        -- apply IH. exists i, c'. rewrite Nat.add_succ_r in Hlt.
           now repeat split.
Qed.

(** The locator never raises: its answer is that of lines 66-75, and an
    exception there becomes [None]. *)
Lemma get_latest_exp_folder_run env s :
  exists t,
    get_latest_exp_folder env s =
    (Ret match latest_of env (glob_glob env exp_search_path) with
         | Ret o => o
         | Raise _ => None
         end, s, t).
Proof.
  unfold get_latest_exp_folder, try_except, bind, emit, lift, print, ret.
  destruct (latest_of env (glob_glob env exp_search_path)); cbn; eauto.
Qed.

(** C6, as stated, fails: a candidate exists, but it vanishes before its
    creation time is read, the handler of line 77 catches the error, and the
    locator answers none. *)
Lemma none_although_candidate_exists :
  glob_glob vanished_run_env exp_search_path = [exp_new] /\
  result_of (get_latest_exp_folder vanished_run_env idle) = Ret None.
Proof. split; reflexivity. Qed.

(** C6, amended.  The locator raises nothing.  It answers none exactly
    when there is no candidate or the creation time of some candidate
    cannot be read.  Otherwise it answers a candidate: when some candidate
    is within the 30-second window, one within the window whose creation
    time is the greatest among those within the window; when none is, one
    whose creation time is the greatest among all candidates.  Given a
    45-second-old and a 5-second-old candidate, in either order, and a
    clock that does not run backwards, it answers the 5-second-old one. *)
Theorem get_latest_exp_folder_selects :
  (forall env s,
     exists o t,
       get_latest_exp_folder env s = (Ret o, s, t) /\
       (o = None <->
        glob_glob env exp_search_path = [] \/
        exists f e,
          In f (glob_glob env exp_search_path) /\ getctime env f = Raise e) /\
       (forall r,
          o = Some r ->
          In r (glob_glob env exp_search_path) /\
          exists cr,
            getctime env r = Ret cr /\
            (forall i f c,
               is_recent env (glob_glob env exp_search_path) i f c ->
               (exists j,
                  is_recent env (glob_glob env exp_search_path) j r cr) /\
               (c <= cr)%Z) /\
            ((forall i f c,
                ~ is_recent env (glob_glob env exp_search_path) i f c) ->
             forall f c,
               In f (glob_glob env exp_search_path) ->
               getctime env f = Ret c -> (c <= cr)%Z))) /\
  (forall env s a b now,
     glob_glob env exp_search_path = [a; b] \/
     glob_glob env exp_search_path = [b; a] ->
     getctime env a = Ret (now - 45000)%Z ->
     getctime env b = Ret (now - 5000)%Z ->
     (forall k, (now <= time_time env k)%Z) ->
     result_of (get_latest_exp_folder env s) = Ret (Some b)).
Proof.
  split.
  - intros env s.
    destruct (get_latest_exp_folder_run env s) as [t Hrun].
    eexists; exists t. split; [ exact Hrun | ]. clear Hrun.
    unfold latest_of.
    destruct (glob_glob env exp_search_path) as [| f0 l'] eqn:Hl.
    { split; [ split; auto | discriminate ]. }
    set (l := f0 :: l') in *.
    destruct (recent_files env 0 l) as [rec | e] eqn:Hrec.
    2:{ split; [ | discriminate ]. split; [ intros _; right | reflexivity ].
        destruct (recent_files_raise env l 0%nat e Hrec) as (f & e' & Hf & He).
        now exists f, e'. }
    pose proof (recent_files_readable env l 0%nat rec Hrec) as Hread.
    pose proof (recent_files_spec env l 0%nat rec Hrec) as Hspec.
    assert (Hnot_none :
              ~ (l = [] \/ exists f e, In f l /\ getctime env f = Raise e)).
    { intros [Hnil | (f & e & Hf & He)]; [ discriminate Hnil | ].
      destruct (Hread f Hf) as [c Hc]. congruence. }
    destruct rec as [| r0 rec'].
    + destruct (py_max_spec (getctime env) f0 l' Hread)
        as (r & cr & Hr & Hin & Hcr & Hmax).
      fold l in Hr. rewrite Hr. split.
      * split; [ discriminate | intros H; now destruct (Hnot_none H) ].
      * intros r' Hr'. injection Hr' as <-. split; [ exact Hin | ].
        exists cr. split; [ exact Hcr | split ].
        -- intros i f c (Hn & Hc & Hlt). exfalso.
           apply (proj2 (Hspec f)). now exists i, c.
        -- intros _ f c Hf Hc. exact (Hmax f c Hf Hc).
    + assert (Hsub : forall g, In g (r0 :: rec') -> In g l).
      { intros g Hg. apply Hspec in Hg. destruct Hg as (i & c & Hn & _).
        exact (nth_error_In l i Hn). }
      destruct (py_max_spec (getctime env) r0 rec')
        as (r & cr & Hr & Hin & Hcr & Hmax).
      { intros g Hg. apply Hread. now apply Hsub. }
      rewrite Hr. split.
      * split; [ discriminate | intros H; now destruct (Hnot_none H) ].
      * intros r' Hr'. injection Hr' as <-. split; [ now apply Hsub | ].
        exists cr. split; [ exact Hcr | split ].
        -- intros i f c (Hn & Hc & Hlt). split.
           ++ destruct (proj1 (Hspec r) Hin) as (j & c' & Hn' & Hc' & Hlt').
              exists j. rewrite Hcr in Hc'. injection Hc' as <-.
              now repeat split.
           ++ apply (Hmax f c); [ | exact Hc ].
              apply (proj2 (Hspec f)). now exists i, c.
        -- intros Hnone. exfalso.
           destruct (proj1 (Hspec r0) (or_introl eq_refl))
             as (j & c' & Hn' & Hc' & Hlt').
           apply (Hnone j r0 c'). now repeat split.
  - intros env s a b now Hl Ha Hb Hclock.
    destruct (get_latest_exp_folder_run env s) as [t Hrun].
    rewrite Hrun. unfold result_of. cbn [fst]. clear Hrun.
    assert (Hold : forall k,
               (now - 45000 >? time_time env k - RECENT_WINDOW)%Z = false).
    { intros k. specialize (Hclock k). unfold RECENT_WINDOW.
      rewrite Z.gtb_ltb. apply Z.ltb_ge. lia. }
    assert (Hnewer : (now - 5000 >? now - 45000)%Z = true)
      by (rewrite Z.gtb_ltb; apply Z.ltb_lt; lia).
    assert (Holder : (now - 45000 >? now - 5000)%Z = false)
      by (rewrite Z.gtb_ltb; apply Z.ltb_ge; lia).
    unfold latest_of.
    destruct Hl as [-> | ->]; cbn [recent_files]; rewrite Ha, Hb, Hold.
    + destruct (now - 5000 >? time_time env 1 - RECENT_WINDOW)%Z;
        cbn [py_max max_by_key]; rewrite ?Ha, ?Hb; cbn [max_by_key];
        rewrite ?Hb, ?Hnewer; reflexivity.
    + destruct (now - 5000 >? time_time env 0 - RECENT_WINDOW)%Z;
        cbn [py_max max_by_key]; rewrite ?Ha, ?Hb; cbn [max_by_key];
        rewrite ?Ha, ?Holder; reflexivity.
Qed.

(** The two folders of the example, the older one listed first. *)
Lemma get_latest_exp_folder_selects_witness :
  glob_glob two_runs_env exp_search_path = [exp_old; exp_new] /\
  getctime two_runs_env exp_old = Ret (100000 - 45000)%Z /\
  getctime two_runs_env exp_new = Ret (100000 - 5000)%Z /\
  result_of (get_latest_exp_folder two_runs_env idle) = Ret (Some exp_new).
Proof.
  split; [ reflexivity | split; [ reflexivity | split; [ reflexivity | ] ] ].
  apply (proj2 get_latest_exp_folder_selects two_runs_env idle
           exp_old exp_new 100000%Z).
  - left. reflexivity.
  - reflexivity.
  - reflexivity.
  - intros k. cbn. lia.
Defined.

(** * Further properties of the code *)

(** ** The capture *)

(** Every run of the capture is one of the eight of [capture_outcome]. *)
Lemma capture_cases env index path s :
  capture_outcome env index path s (capture_single_frame env index path s).
Proof.
  unfold capture_single_frame, capture_body, try_except, bind, print, emit,
    lift, ret, imwrite.
  destruct (py_int env index) as [i | e] eqn:Hi; cbn;
    [ | now apply BadIndex ].
  destruct (cv2_VideoCapture env i) as [cap | e] eqn:Hcap; cbn;
    [ | now apply OpenRaised ].
  destruct (isOpened cap) eqn:Hopen; cbn;
    [ | now apply NotOpened with (cap := cap) ].
  destruct (read cap) as [[ok f] | e] eqn:Hread; cbn;
    [ | now apply ReadRaised with (cap := cap) ].
  destruct (release cap) as [[] | e] eqn:Hrel; cbn;
    [ | now apply ReleaseRaised with (cap := cap) (rf := (ok, f)) ].
  destruct ok; cbn;
    [ | now apply NoFrame with (cap := cap) (f := f) ].
  destruct (cv2_imwrite env path f) as [w | e] eqn:Hw; cbn;
    [ | now apply WriteRaised with (cap := cap) (f := f) ].
  pose proof (FrameSaved env index path s i cap f w Hi Hcap Hopen Hread
                Hrel Hw) as H.
  destruct w; cbn in *; [ | exact H ].
  destruct (String.eqb path TEMP_IMAGE_PATH); exact H.
Qed.

(** Finds the place of two neighbouring events in a trace that is written
    out. *)
Ltac split_trace :=
  match goal with
  | |- exists a b, ?t = a ++ _ :: _ :: b =>
      first
        [ exists (firstn 0 t), (skipn 2 t); reflexivity
        | exists (firstn 1 t), (skipn 3 t); reflexivity
        | exists (firstn 2 t), (skipn 4 t); reflexivity
        | exists (firstn 3 t), (skipn 5 t); reflexivity
        | exists (firstn 4 t), (skipn 6 t); reflexivity
        | exists (firstn 5 t), (skipn 7 t); reflexivity ]
  end.

(** Goes through the members of a trace that is written out, dropping
    those that cannot be the event looked for. *)
Ltac in_cases H :=
  cbn in H;
  repeat match type of H with
         | _ \/ _ => destruct H as [H | H]; [ try discriminate H | ]
         | False => contradiction
         end.

(** X1. The camera protocol of [capture_single_frame].  A frame is read
    only directly after the warm-up of 1.5 seconds.  The device is released
    exactly when it opened and the read returned, with or without a frame,
    and then directly after the read; it is not released when the read
    raised.  A device that did not open is neither waited for, read nor
    released. *)
Theorem capture_camera_protocol :
  forall env index path s,
    (In CapRead (trace_of (capture_single_frame env index path s)) ->
     exists a b,
       trace_of (capture_single_frame env index path s)
       = a ++ Sleep 1500 :: CapRead :: b) /\
    (In CapRelease (trace_of (capture_single_frame env index path s)) <->
     exists i cap rf,
       py_int env index = Ret i /\ cv2_VideoCapture env i = Ret cap /\
       isOpened cap = true /\ read cap = Ret rf) /\
    (In CapRelease (trace_of (capture_single_frame env index path s)) ->
     exists a b,
       trace_of (capture_single_frame env index path s)
       = a ++ CapRead :: CapRelease :: b) /\
    (forall i cap,
       py_int env index = Ret i -> cv2_VideoCapture env i = Ret cap ->
       isOpened cap = false ->
       capture_single_frame env index path s =
       (Ret false, s,
        [Printed (LogCaptureAttempt index); VideoCapture i;
         Printed (LogCannotOpen index)])).
Proof.
  intros env index path s.
  destruct (capture_cases env index path s); unfold trace_of; cbn [snd];
    (split; [ | split; [ split | split ] ]);
    try (intros HIn; cbn in HIn; solve [ intuition discriminate ]);
    try (intros _; split_trace);
    try (intros (i' & cap' & rf' & Hi' & Hcap' & Hopen' & Hread');
         congruence);
    try (intros _; repeat eexists; eassumption);
    try (intros i' cap' Hi' Hcap' Hopen'; congruence);
    try (intros _; cbn; tauto).
Qed.

(** A capture with a working camera: the three facts of X1 that have a
    premise. *)
Lemma capture_camera_protocol_witness :
  In CapRead
     (trace_of (capture_single_frame sample_env CAMERA_INDEX TEMP_IMAGE_PATH
                  idle)) /\
  (exists a b,
     trace_of (capture_single_frame sample_env CAMERA_INDEX TEMP_IMAGE_PATH
                 idle)
     = a ++ Sleep 1500 :: CapRead :: b) /\
  (exists a b,
     trace_of (capture_single_frame sample_env CAMERA_INDEX TEMP_IMAGE_PATH
                 idle)
     = a ++ CapRead :: CapRelease :: b) /\
  capture_single_frame camera_busy_env CAMERA_INDEX TEMP_IMAGE_PATH idle =
  (Ret false, idle,
   [Printed (LogCaptureAttempt CAMERA_INDEX); VideoCapture 1;
    Printed (LogCannotOpen CAMERA_INDEX)]).
Proof.
  split; [ vm_compute; tauto | split; [ | split ] ].
  - apply (proj1 (capture_camera_protocol sample_env CAMERA_INDEX
                    TEMP_IMAGE_PATH idle)).
    vm_compute. tauto.
  - apply (proj1 (proj2 (proj2 (capture_camera_protocol sample_env
                                  CAMERA_INDEX TEMP_IMAGE_PATH idle)))).
    vm_compute. tauto.
  - apply (proj2 (proj2 (proj2 (capture_camera_protocol camera_busy_env
                                  CAMERA_INDEX TEMP_IMAGE_PATH idle)))
             1%Z busy_camera); reflexivity.
Defined.

(** X2. The answer of [capture_single_frame].  It is [True] exactly when
    the index parsed, the device opened, a frame was read, the device was
    released and [cv2.imwrite] returned, whatever [cv2.imwrite] answered:
    when it answered [False] the capture still answers [True] and nothing
    has been stored.  The image writer is called for the given path only,
    and directly after the release of the device. *)
Theorem capture_answer :
  forall env index path s,
    (result_of (capture_single_frame env index path s) = Ret true <->
     exists i cap f w,
       py_int env index = Ret i /\ cv2_VideoCapture env i = Ret cap /\
       isOpened cap = true /\ read cap = Ret (true, f) /\
       release cap = Ret tt /\ cv2_imwrite env path f = Ret w) /\
    (forall i cap f,
       py_int env index = Ret i -> cv2_VideoCapture env i = Ret cap ->
       isOpened cap = true -> read cap = Ret (true, f) ->
       release cap = Ret tt -> cv2_imwrite env path f = Ret false ->
       result_of (capture_single_frame env index path s) = Ret true /\
       state_of (capture_single_frame env index path s) = s) /\
    (forall p,
       In (Imwrite p) (trace_of (capture_single_frame env index path s)) ->
       p = path /\
       exists a b,
         trace_of (capture_single_frame env index path s)
         = a ++ CapRelease :: Imwrite path :: b).
Proof.
  intros env index path s.
  destruct (capture_cases env index path s);
    unfold trace_of, result_of, state_of; cbn [fst snd];
    (split; [ split | split ]);
    try discriminate;
    try (intros (i' & cap' & f' & w' & Hi' & Hcap' & Hopen' & Hread'
                 & Hrel' & Hw'); congruence);
    try (intros i' cap' f' Hi' Hcap' Hopen' Hread' Hrel' Hw';
         try congruence);
    try (intros p HIn; in_cases HIn;
         (injection HIn as <-; (split; [ reflexivity | split_trace ]))).
  - intros _. repeat eexists; eassumption.
  - assert (i' = i) by congruence. subst i'.
    assert (cap' = cap) by congruence. subst cap'.
    assert (f' = f) by congruence. subst f'.
    assert (w = false) by congruence. subst w.
    split; reflexivity.
Qed.

(** The image writer answers [False]: the capture answers [True] and the
    state is as before. *)
Lemma capture_answer_witness :
  cv2_imwrite unwritable_env TEMP_IMAGE_PATH 7 = Ret false /\
  result_of (capture_single_frame unwritable_env CAMERA_INDEX TEMP_IMAGE_PATH
               idle) = Ret true /\
  state_of (capture_single_frame unwritable_env CAMERA_INDEX TEMP_IMAGE_PATH
              idle) = idle.
Proof.
  split; [ reflexivity | ].
  apply (proj1 (proj2 (capture_answer unwritable_env CAMERA_INDEX
                         TEMP_IMAGE_PATH idle))
           1%Z working_camera 7); reflexivity.
Defined.

(** X3. What [capture_single_frame] does to the state: either nothing, or,
    when it answers [True] for the path of the temporary image, it makes
    that image exist.  So it never touches [is_detecting], never deletes
    the image, and a capture that answers [False] has stored nothing. *)
Theorem capture_state_effect :
  forall env index path s,
    state_of (capture_single_frame env index path s) = s \/
    (result_of (capture_single_frame env index path s) = Ret true /\
     path = TEMP_IMAGE_PATH /\
     state_of (capture_single_frame env index path s)
     = set_temp_image true s).
Proof.
  intros env index path s.
  destruct (capture_cases env index path s);
    unfold result_of, state_of; cbn [fst snd]; try (now left).
  destruct w; cbn [andb]; [ | now left ].
  destruct (String.eqb path TEMP_IMAGE_PATH) eqn:Hp; [ | now left ].
  right. apply String.eqb_eq in Hp. now repeat split.
Qed.

(** ** The inspector *)

Lemma last_char_app a :
  forall prev b, last_char prev (a ++ b) = last_char (last_char prev a) b.
Proof.
  induction a as [| c a IH]; intros prev b; [ reflexivity | ].
  cbn. apply IH.
Qed.

(** Neither the labels folder nor the crops folder of an output folder is
    the temporary image. *)
Lemma labels_dir_is_not_temp folder :
  String.eqb (path_join folder "labels") TEMP_IMAGE_PATH = false.
Proof.
  apply String.eqb_neq. intros H.
  apply (f_equal (last_char None)) in H.
  unfold path_join in H at 1. rewrite last_char_app in H.
  vm_compute in H. discriminate H.
Qed.

Lemma crops_dir_is_not_temp folder :
  String.eqb (path_join (path_join folder "crops") "person") TEMP_IMAGE_PATH
  = false.
Proof.
  apply String.eqb_neq. intros H.
  apply (f_equal (last_char None)) in H.
  unfold path_join in H at 1. rewrite last_char_app in H.
  vm_compute in H. discriminate H.
Qed.

(** One label file under the handler of line 128: nothing is raised, and
    the answer is [True] exactly when the file has a size that is not
    zero, can be read, and holds the class identifier. *)
Lemma inspect_guarded_run env labels_dir label_file s :
  exists t,
    try_except (inspect_label_file env labels_dir label_file)
      (fun e => print (LogLabelReadError label_file e);; ret false) s
    = (Ret match getsize env (path_join labels_dir label_file) with
           | Ret O => false
           | Ret (S _) =>
               match read_text env (path_join labels_dir label_file) with
               | Ret content => re_search_word PERSON_CLASS_ID content
               | Raise _ => false
               end
           | Raise _ => false
           end, s, t).
Proof.
  unfold inspect_label_file, try_except, bind, emit, lift, print, ret.
  destruct (getsize env (path_join labels_dir label_file)) as [[| n] | e];
    cbn; try (eexists; reflexivity).
  destruct (read_text env (path_join labels_dir label_file)) as [c | e];
    cbn; eexists; reflexivity.
Qed.

Lemma scan_label_files_run env labels_dir names :
  forall s,
  exists t,
    scan_label_files env labels_dir names s
    = (Ret (existsb (label_matches env labels_dir) names), s, t).
Proof.
  induction names as [| label_file rest IH]; intros s.
  - exists []. reflexivity.
  - cbn [scan_label_files existsb]. unfold label_matches at 1.
    destruct (endswith label_file ".txt"); cbn [andb orb]; [ | apply IH ].
    rewrite run_bind.
    destruct (inspect_guarded_run env labels_dir label_file s) as [t1 Hrun].
    rewrite Hrun.
    destruct (match getsize env (path_join labels_dir label_file) with
              | Ret O => false
              | Ret (S _) =>
                  match read_text env (path_join labels_dir label_file) with
                  | Ret content => re_search_word PERSON_CLASS_ID content
                  | Raise _ => false
                  end
              | Raise _ => false
              end); cbn [orb].
    + eexists. reflexivity.
    + destruct (IH s) as [t2 Hrest]. rewrite Hrest. eexists. reflexivity.
Qed.

(** X4. The loop over the label files raises nothing and leaves the state
    alone, whatever the files are: a file whose size or text cannot be read
    is passed over.  Its answer is [True] exactly when some listed name
    ends in [.txt], has a size that is not zero, can be read, and holds
    the class identifier as the regular expression of line 126 sees it. *)
Theorem scan_label_files_answer :
  forall env labels_dir names s,
    result_of (scan_label_files env labels_dir names s)
    = Ret (existsb (label_matches env labels_dir) names) /\
    state_of (scan_label_files env labels_dir names s) = s.
Proof.
  intros env labels_dir names s.
  destruct (scan_label_files_run env labels_dir names s) as [t H].
  rewrite H. split; reflexivity.
Qed.

(** X5. The loop stops at the first file that matches: the names listed
    after it are neither sized nor opened, and change nothing of the
    result, the state and the trace. *)
Theorem scan_stops_at_first_match :
  forall env labels_dir before name after s,
    label_matches env labels_dir name = true ->
    scan_label_files env labels_dir (before ++ name :: after) s
    = scan_label_files env labels_dir (before ++ [name]) s.
Proof.
  intros env labels_dir before name after s Hmatch. revert s.
  induction before as [| label_file rest IH]; intros s.
  - cbn [app scan_label_files].
    unfold label_matches in Hmatch.
    destruct (endswith name ".txt"); [ | discriminate Hmatch ].
    cbn [andb] in Hmatch. rewrite !run_bind.
    destruct (inspect_guarded_run env labels_dir name s) as [t Hrun].
    rewrite Hrun, Hmatch. reflexivity.
  - cbn [app scan_label_files].
    destruct (endswith label_file ".txt"); [ | apply IH ].
    rewrite !run_bind.
    destruct (try_except (inspect_label_file env labels_dir label_file)
                (fun e => print (LogLabelReadError label_file e);; ret false)
                s) as [[[[ | ] | e] s1] t1]; try reflexivity.
    now rewrite IH.
Qed.

(** The fourth file of the folder is never looked at: the third one holds
    a person. *)
Lemma scan_stops_at_first_match_witness :
  label_matches mixed_labels_env (path_join exp_new "labels") "person.txt"
  = true /\
  scan_label_files mixed_labels_env (path_join exp_new "labels")
    (["empty.txt"; "car.txt"] ++ "person.txt" :: ["later.txt"]) idle
  = scan_label_files mixed_labels_env (path_join exp_new "labels")
      (["empty.txt"; "car.txt"] ++ ["person.txt"]) idle.
Proof.
  split; [ reflexivity | ].
  apply (scan_stops_at_first_match mixed_labels_env
           (path_join exp_new "labels") ["empty.txt"; "car.txt"]
           "person.txt" ["later.txt"] idle).
  reflexivity.
Defined.

(** X6. The three ways of [check_for_person].  Without a labels folder it
    answers [False] after the warning of line 109 and lists nothing.  When
    the folder cannot be listed, the exception of [os.listdir] leaves the
    function: no handler of [check_for_person] stands around line 112.
    Otherwise it answers what the loop over the listed names answers. *)
Theorem check_for_person_cases :
  forall env exp_folder s,
    (path_exists env (path_join exp_folder "labels") = false ->
     check_for_person env exp_folder s =
     (Ret false, s,
      [PathExists (path_join exp_folder "labels");
       Printed LogNoLabelFolder])) /\
    (forall e,
       path_exists env (path_join exp_folder "labels") = true ->
       listdir env (path_join exp_folder "labels") = Raise e ->
       check_for_person env exp_folder s =
       (Raise e, s,
        [PathExists (path_join exp_folder "labels");
         Listdir (path_join exp_folder "labels")])) /\
    (forall names,
       path_exists env (path_join exp_folder "labels") = true ->
       listdir env (path_join exp_folder "labels") = Ret names ->
       result_of (check_for_person env exp_folder s)
       = Ret (existsb (label_matches env (path_join exp_folder "labels"))
                      names) /\
       state_of (check_for_person env exp_folder s) = s).
Proof.
  intros env exp_folder s.
  unfold check_for_person, bind, os_path_exists, emit, print, lift, ret.
  rewrite labels_dir_is_not_temp.
  split; [ | split ].
  - intros ->. reflexivity.
  - intros e -> ->. reflexivity.
  - intros names -> ->. cbn.
    destruct (scan_label_files_run env (path_join exp_folder "labels")
                names s) as [t H].
    rewrite H. split; reflexivity.
Qed.

(** A folder that cannot be listed, and the folder with four files. *)
Lemma check_for_person_cases_witness :
  check_for_person unlistable_env exp_new idle =
  (Raise OSError, idle,
   [PathExists (path_join exp_new "labels");
    Listdir (path_join exp_new "labels")]) /\
  result_of (check_for_person mixed_labels_env exp_new idle) = Ret true.
Proof.
  split.
  - apply (proj1 (proj2 (check_for_person_cases unlistable_env exp_new idle))
             OSError); reflexivity.
  - apply (proj2 (proj2 (check_for_person_cases mixed_labels_env exp_new
                           idle))
             ["empty.txt"; "car.txt"; "person.txt"; "later.txt"]);
      reflexivity.
Defined.

(** ** The regular expression of line 126 *)

Lemma strip_prefix_spec p :
  forall s r, strip_prefix p s = Some r <-> s = (p ++ r)%string.
Proof.
  induction p as [| a p IH]; intros s r; cbn.
  - split; [ now intros [= ->] | now intros -> ].
  - destruct s as [| b s]; [ split; discriminate | ].
    destruct (Ascii.eqb_spec a b) as [-> | Hab].
    + rewrite IH. split; [ now intros -> | now intros [= ->] ].
    + split; [ discriminate | ].
      intros H. injection H as H1 H2. symmetry in H1. contradiction.
Qed.

Lemma match_here_spec tok prev s :
  match_here tok prev s = true <->
  exists after,
    s = (tok ++ after)%string /\
    word_boundary prev (head_char s) = true /\
    word_boundary (last_char prev tok) (head_char after) = true.
Proof.
  unfold match_here. rewrite andb_true_iff. split.
  - intros [Hb H].
    destruct (strip_prefix tok s) as [rest | ] eqn:Hs; [ | discriminate H ].
    apply strip_prefix_spec in Hs. now exists rest.
  - intros (after & Hs & Hb & He). split; [ exact Hb | ].
    apply strip_prefix_spec in Hs. now rewrite Hs.
Qed.

(** The search finds the token exactly when the text splits around an
    occurrence of it with a word boundary on either side. *)
Lemma search_from_spec tok s :
  forall prev,
    search_from tok prev s = true <->
    exists before after,
      s = (before ++ tok ++ after)%string /\
      word_boundary (last_char prev before) (head_char (tok ++ after)) = true /\
      word_boundary (last_char (last_char prev before) tok) (head_char after)
      = true.
Proof.
  induction s as [| c r IH]; intros prev; cbn [search_from].
  - rewrite orb_false_r, match_here_spec. split.
    + intros (after & Hs & Hb & He). exists EmptyString, after.
      cbn. rewrite <- Hs. now repeat split.
    + intros (before & after & Hs & Hb & He).
      destruct before as [| c b]; [ | discriminate Hs ].
      cbn in *. exists after. rewrite <- Hs in Hb. now repeat split.
  - rewrite orb_true_iff, match_here_spec, IH. split.
    + intros [(after & Hs & Hb & He) | (before & after & Hs & Hb & He)].
      * exists EmptyString, after. cbn. rewrite <- Hs. now repeat split.
      * exists (String c before), after. cbn. rewrite Hs. now repeat split.
    + intros (before & after & Hs & Hb & He).
      destruct before as [| c' b].
      * left. cbn in *. exists after. rewrite <- Hs in Hb. now repeat split.
      * right. cbn in Hs. injection Hs as <- Hr. cbn in Hb, He.
        exists b, after. now repeat split.
Qed.

(** X7. What line 126 accepts.  The search for the class identifier [0]
    succeeds exactly when the text holds a character [0] that has no word
    character (letter, digit or underscore) directly before it and none
    directly after it, anywhere in the text: at the start of a line or
    not. *)
Theorem person_id_search_spec :
  forall content,
    re_search_word PERSON_CLASS_ID content = true <->
    exists before after,
      content = (before ++ "0" ++ after)%string /\
      is_word_opt (last_char None before) = false /\
      is_word_opt (head_char after) = false.
Proof.
  intros content. unfold re_search_word, PERSON_CLASS_ID.
  rewrite search_from_spec. unfold word_boundary.
  assert (Hlast : forall prev, is_word_opt (last_char prev "0") = true)
    by reflexivity.
  assert (Hhead : forall after,
             is_word_opt (head_char ("0" ++ after)%string) = true)
    by reflexivity.
  split; intros (before & after & Hs & Hb & He); exists before, after;
    (split; [ exact Hs | ]); rewrite Hlast, Hhead in *.
  - rewrite xorb_true_r in Hb. rewrite xorb_true_l in He.
    apply negb_true_iff in Hb, He. now split.
  - rewrite Hb, He. split; reflexivity.
Qed.

(** ** What a statement can emit *)

Lemma emits_ret {A} P (a : A) : emits P (ret a).
Proof. intros s. reflexivity. Qed.

Lemma emits_lift {A} P (r : result A) : emits P (lift r).
Proof. intros s. reflexivity. Qed.

Lemma emits_emit P e : P e = true -> emits P (emit e).
Proof. intros H s. cbn. now rewrite H. Qed.

Lemma emits_print P m : P (Printed m) = true -> emits P (print m).
Proof. apply emits_emit. Qed.

Lemma emits_exists P env path :
  P (PathExists path) = true -> emits P (os_path_exists env path).
Proof. intros H s. cbn. now rewrite H. Qed.

Lemma emits_bind {A B} P (m : M A) (f : A -> M B) :
  emits P m -> (forall a, emits P (f a)) -> emits P (bind m f).
Proof.
  intros Hm Hf s. unfold bind. specialize (Hm s). unfold trace_of in *.
  destruct (m s) as [[[a | e] s1] t1]; cbn in *; [ | exact Hm ].
  specialize (Hf a s1). unfold trace_of in Hf.
  destruct (f a s1) as [[r s2] t2]; cbn in *.
  now rewrite forallb_app, Hm, Hf.
Qed.

Lemma emits_try_except {A} P (m : M A) (h : exn -> M A) :
  emits P m -> (forall e, emits P (h e)) -> emits P (try_except m h).
Proof.
  intros Hm Hh s. unfold try_except. specialize (Hm s). unfold trace_of in *.
  destruct (m s) as [[[a | e] s1] t1]; cbn in *; [ exact Hm | ].
  specialize (Hh e s1). unfold trace_of in Hh.
  destruct (h e s1) as [[r s2] t2]; cbn in *.
  now rewrite forallb_app, Hm, Hh.
Qed.

(** Splits a statement into its parts and looks at each event. *)
Ltac emits_step :=
  first
    [ apply emits_ret
    | apply emits_lift
    | apply emits_emit; reflexivity
    | apply emits_exists; reflexivity
    | match goal with
      | |- emits _ (let _ := _ in _) => cbv zeta
      | |- emits _ (if ?b then _ else _) => destruct b
      | |- emits _ (match ?x with _ => _ end) => destruct x
      end
    | apply emits_bind; [ | intros ? ]
    | apply emits_try_except; [ | intros ? ] ].
Ltac emits_all := repeat emits_step.

(** Locating, inspecting and looking for evidence print no alert. *)
Lemma scan_label_files_no_alert env labels_dir names :
  emits (fun e => negb (is_alert e)) (scan_label_files env labels_dir names).
Proof.
  induction names as [| label_file rest IH]; cbn [scan_label_files].
  - apply emits_ret.
  - destruct (endswith label_file ".txt"); [ | exact IH ].
    apply emits_bind.
    + unfold inspect_label_file, print. emits_all.
    + intros [ | ]; [ apply emits_ret | exact IH ].
Qed.

Lemma check_for_person_no_alert env exp_folder :
  emits (fun e => negb (is_alert e)) (check_for_person env exp_folder).
Proof.
  unfold check_for_person.
  apply emits_bind; [ emits_all | intros ex ].
  destruct (negb ex); [ unfold print; emits_all | ].
  apply emits_bind; [ emits_all | intros _ ].
  apply emits_bind; [ emits_all | intros names ].
  apply scan_label_files_no_alert.
Qed.

Lemma get_saved_evidence_path_no_alert env exp_folder :
  emits (fun e => negb (is_alert e))
        (get_saved_evidence_path env exp_folder).
Proof. unfold get_saved_evidence_path, print. emits_all. Qed.

Lemma get_latest_exp_folder_no_alert env :
  emits (fun e => negb (is_alert e)) (get_latest_exp_folder env).
Proof. unfold get_latest_exp_folder, print. emits_all. Qed.

(** ** The evidence *)

Lemma max_by_key_raise key l :
  forall best kbest,
    (exists f e, In f l /\ key f = Raise e) ->
    exists e, max_by_key key best kbest l = Raise e.
Proof.
  induction l as [| f l IH]; intros best kbest (g & e & Hg & He).
  - destruct Hg.
  - cbn [max_by_key]. destruct (key f) as [k | e'] eqn:Hk; [ | now exists e' ].
    assert (Hrest : exists g e, In g l /\ key g = Raise e).
    { destruct Hg as [<- | Hg]; [ congruence | now exists g, e ]. }
    destruct (Z.gtb k kbest); now apply IH.
Qed.

Lemma py_max_raise key l :
  (exists f e, In f l /\ key f = Raise e) ->
  exists e, py_max key l = Raise e.
Proof.
  intros (g & e & Hg & He). destruct l as [| f l]; [ destruct Hg | ].
  cbn [py_max]. destruct (key f) as [k | e'] eqn:Hk; [ | now exists e' ].
  apply max_by_key_raise.
  destruct Hg as [<- | Hg]; [ congruence | now exists g, e ].
Qed.

Arguments py_max : simpl never.

(** X8. [get_saved_evidence_path] never changes the state.  It answers
    none, after the warning of line 97, when the crops folder of the class
    is missing or holds no [.jpg] file.  When the folder holds crops whose
    creation times can all be read it answers one of them, with the
    greatest creation time.  When the creation time of some crop cannot be
    read the exception leaves the function. *)
Theorem get_saved_evidence_path_cases :
  forall env exp_folder s,
    state_of (get_saved_evidence_path env exp_folder s) = s /\
    (path_exists env (path_join (path_join exp_folder "crops") "person")
     = false \/
     glob_glob env
       (path_join (path_join (path_join exp_folder "crops") "person") "*.jpg")
     = [] ->
     result_of (get_saved_evidence_path env exp_folder s) = Ret None /\
     In (Printed LogNoCrop)
        (trace_of (get_saved_evidence_path env exp_folder s))) /\
    (path_exists env (path_join (path_join exp_folder "crops") "person")
     = true ->
     glob_glob env
       (path_join (path_join (path_join exp_folder "crops") "person") "*.jpg")
     <> [] ->
     (forall c,
        In c (glob_glob env
                (path_join (path_join (path_join exp_folder "crops") "person")
                           "*.jpg")) ->
        exists t, getctime env c = Ret t) ->
     exists r tr,
       result_of (get_saved_evidence_path env exp_folder s) = Ret (Some r) /\
       In r (glob_glob env
               (path_join (path_join (path_join exp_folder "crops") "person")
                          "*.jpg")) /\
       getctime env r = Ret tr /\
       forall c t,
         In c (glob_glob env
                 (path_join (path_join (path_join exp_folder "crops")
                                       "person") "*.jpg")) ->
         getctime env c = Ret t -> (t <= tr)%Z) /\
    (path_exists env (path_join (path_join exp_folder "crops") "person")
     = true ->
     (exists c e,
        In c (glob_glob env
                (path_join (path_join (path_join exp_folder "crops") "person")
                           "*.jpg")) /\
        getctime env c = Raise e) ->
     exists e,
       result_of (get_saved_evidence_path env exp_folder s) = Raise e).
Proof.
  intros env exp_folder s.
  unfold get_saved_evidence_path, bind, os_path_exists, emit, print, lift,
    ret, result_of, state_of, trace_of.
  cbv zeta. rewrite crops_dir_is_not_temp.
  set (crops_dir := path_join (path_join exp_folder "crops") "person").
  set (crops := glob_glob env (path_join crops_dir "*.jpg")).
  destruct (path_exists env crops_dir); cbn.
  2:{ split; [ reflexivity | split; [ | split; discriminate ] ].
      intros _. split; [ reflexivity | tauto ]. }
  destruct crops as [| c crops'] eqn:Hcrops; cbn.
  { split; [ reflexivity | split; [ | split ] ].
    - intros _. split; [ reflexivity | tauto ].
    - intros _ H. now destruct H.
    - intros _ (c & e & [] & _). }
  destruct (py_max (getctime env) (c :: crops')) as [r | e] eqn:Hmax; cbn;
    (split; [ reflexivity | split; [ | split ] ]).
  - intros [H | H]; discriminate H.
  - intros _ _ Hread.
    destruct (py_max_spec (getctime env) c crops' Hread)
      as (r' & tr & Hr & Hin & Htr & Hgreatest).
    rewrite Hmax in Hr. injection Hr as <-.
    exists r, tr. now repeat split.
  - intros _ Hraise.
    destruct (py_max_raise (getctime env) (c :: crops') Hraise) as [e He].
    congruence.
  - intros [H | H]; discriminate H.
  - intros _ _ Hread.
    destruct (py_max_spec (getctime env) c crops' Hread)
      as (r' & tr & Hr & _). congruence.
  - intros _ _. now exists e.
Qed.

(** Two crops, the second one newer: it is the evidence. *)
Lemma get_saved_evidence_path_cases_witness :
  result_of (get_saved_evidence_path two_crops_env exp_new idle)
  = Ret (Some crop_b) /\
  (exists e,
     result_of (get_saved_evidence_path lost_crop_env exp_new idle)
     = Raise e) /\
  result_of (get_saved_evidence_path sample_env exp_new idle) = Ret None.
Proof.
  split; [ | split ].
  - destruct (proj1 (proj2 (proj2 (get_saved_evidence_path_cases
                                     two_crops_env exp_new idle))))
      as (r & tr & Hr & _).
    + reflexivity.
    + discriminate.
    + intros c [<- | [<- | []]]; eexists; reflexivity.
    + rewrite Hr. vm_compute in Hr. injection Hr as Hr. subst r.
      reflexivity.
  - apply (proj2 (proj2 (proj2 (get_saved_evidence_path_cases
                                  lost_crop_env exp_new idle)))).
    + reflexivity.
    + exists crop_a, OSError. split; [ now left | reflexivity ].
  - apply (proj1 (proj2 (get_saved_evidence_path_cases
                           sample_env exp_new idle))).
    right. reflexivity.
Defined.

(** ** Classification and alert *)

(** X9. [classify_and_alert] leaves the state alone and alerts exactly
    when [check_for_person] answers [True] and the look for evidence
    returns.  Then the trace ends with the line of line 219, the evidence
    line (the warning of line 224 when there is no crop) and the alert of
    line 227, and nothing before them is an alert: missing evidence does
    not hold the alert back.  When [check_for_person] answers [False], or
    raises, or when the look for evidence raises after a person was found,
    no alert is printed; in the last two cases the exception leaves the
    function. *)
Theorem classify_and_alert_cases :
  forall env folder s,
    state_of (classify_and_alert env folder s) = s /\
    (result_of (check_for_person env folder s) = Ret false ->
     result_of (classify_and_alert env folder s) = Ret tt /\
     forallb (fun e => negb (is_alert e))
             (trace_of (classify_and_alert env folder s)) = true) /\
    (forall e,
       result_of (check_for_person env folder s) = Raise e ->
       result_of (classify_and_alert env folder s) = Raise e /\
       forallb (fun e => negb (is_alert e))
               (trace_of (classify_and_alert env folder s)) = true) /\
    (forall e,
       result_of (check_for_person env folder s) = Ret true ->
       result_of (get_saved_evidence_path env folder s) = Raise e ->
       result_of (classify_and_alert env folder s) = Raise e /\
       forallb (fun e => negb (is_alert e))
               (trace_of (classify_and_alert env folder s)) = true) /\
    (forall evidence,
       result_of (check_for_person env folder s) = Ret true ->
       result_of (get_saved_evidence_path env folder s) = Ret evidence ->
       result_of (classify_and_alert env folder s) = Ret tt /\
       exists before,
         trace_of (classify_and_alert env folder s)
         = before ++
           [Printed LogPersonDetected;
            Printed match evidence with
                    | Some p =>
                        if String.eqb p "" then LogNoEvidence
                        else LogEvidenceSaved p
                    | None => LogNoEvidence
                    end;
            Printed LogSendingAlert] /\
         forallb (fun e => negb (is_alert e)) before = true).
Proof.
  intros env folder s.
  destruct (stage_check_for_person env folder s) as [Hs1 _].
  pose proof (check_for_person_no_alert env folder s) as Hq1.
  destruct (stage_get_saved_evidence_path env folder s) as [Hs2 _].
  pose proof (get_saved_evidence_path_no_alert env folder s) as Hq2.
  unfold classify_and_alert, bind, print, emit, result_of, state_of,
    trace_of in *.
  destruct (check_for_person env folder s) as [[[[ | ] | e] s1] t1];
    cbn [fst snd] in *; subst s1.
  - destruct (get_saved_evidence_path env folder s) as [[[ev | e] s2] t2];
      cbn [fst snd] in *; subst s2.
    + assert (Hshape :
                forall line,
                exists before,
                  Printed (LogAnalyzing folder)
                  :: t1 ++ t2 ++ [Printed LogPersonDetected; Printed line;
                                  Printed LogSendingAlert]
                  = before ++ [Printed LogPersonDetected; Printed line;
                               Printed LogSendingAlert] /\
                  forallb (fun e => negb (is_alert e)) before = true).
      { intros line. exists (Printed (LogAnalyzing folder) :: t1 ++ t2).
        split; [ cbn; now rewrite <- app_assoc | ].
        cbn. now rewrite forallb_app, Hq1, Hq2. }
      destruct ev as [p | ]; [ destruct (String.eqb p "") eqn:Hp | ]; cbn;
        (split; [ reflexivity | ]);
        (split; [ discriminate | ]);
        (split; [ discriminate | ]);
        (split; [ discriminate | ]);
        intros evidence _ Hev; injection Hev as <-; rewrite ?Hp;
        (split; [ reflexivity | apply Hshape ]).
    + cbn. split; [ reflexivity | ].
      split; [ discriminate | ].
      split; [ discriminate | ].
      split; [ | discriminate ].
      intros e' _ He. injection He as <-. split; [ reflexivity | ].
      now rewrite forallb_app, Hq1, Hq2.
  - cbn. split; [ reflexivity | ].
    split; [ | repeat split; discriminate ].
    intros _. split; [ reflexivity | ].
    now rewrite forallb_app, Hq1.
  - cbn. split; [ reflexivity | ].
    split; [ discriminate | ].
    split; [ | split; discriminate ].
    intros e' He. injection He as <-. split; [ reflexivity | exact Hq1 ].
Qed.

(** A person with two crops, a person whose crop is lost, an empty label
    file, and a labels folder that cannot be listed. *)
Lemma classify_and_alert_cases_witness :
  (exists before,
     trace_of (classify_and_alert two_crops_env exp_new idle)
     = before ++ [Printed LogPersonDetected;
                  Printed (LogEvidenceSaved crop_b);
                  Printed LogSendingAlert] /\
     forallb (fun e => negb (is_alert e)) before = true) /\
  result_of (classify_and_alert lost_crop_env exp_new idle) = Raise OSError /\
  forallb (fun e => negb (is_alert e))
          (trace_of (classify_and_alert empty_label_env exp_new idle)) = true /\
  result_of (classify_and_alert unlistable_env exp_new idle) = Raise OSError.
Proof.
  split; [ | split; [ | split ] ].
  - apply (proj2 (proj2 (proj2 (proj2 (classify_and_alert_cases
                                         two_crops_env exp_new idle))))
             (Some crop_b)); reflexivity.
  - apply (proj1 (proj2 (proj2 (proj2 (classify_and_alert_cases
                                         lost_crop_env exp_new idle))))
             OSError); reflexivity.
  - apply (proj1 (proj2 (classify_and_alert_cases empty_label_env exp_new
                           idle))).
    reflexivity.
  - apply (proj1 (proj2 (proj2 (classify_and_alert_cases unlistable_env
                                  exp_new idle)))
             OSError).
    reflexivity.
Defined.

(** ** The whole cycle *)

Arguments classify_and_alert : simpl never.
Arguments locate_and_inspect : simpl never.

(** Lines 205-212, case by case. *)
Lemma locate_and_inspect_cases env s :
  locate_and_inspect env s =
  match latest_of env (glob_glob env exp_search_path) with
  | Ret (Some folder) =>
      if String.eqb folder ""
      then (Ret tt, s, [Glob exp_search_path; Printed LogNoOutputFolder])
      else
        let '(r, s', t) := classify_and_alert env folder s in
        (r, s', Glob exp_search_path :: t)
  | Ret None =>
      (Ret tt, s, [Glob exp_search_path; Printed LogNoOutputFolder])
  | Raise e =>
      (Ret tt, s,
       [Glob exp_search_path; Printed (LogLatestFolderError e);
        Printed LogNoOutputFolder])
  end.
Proof.
  unfold locate_and_inspect, get_latest_exp_folder, try_except, bind, emit,
    lift, print, ret.
  destruct (latest_of env (glob_glob env exp_search_path))
    as [[folder | ] | e]; cbn; try reflexivity.
  destruct (String.eqb folder ""); [ reflexivity | ].
  destruct (classify_and_alert env folder s) as [[r s'] t]. reflexivity.
Qed.

(** The [try] of lines 187-234 under its two handlers, case by case. *)
Lemma guarded_cases env s :
  try_except (detection_body env) detection_handler s =
  match popen env YOLO_COMMAND with
  | Raise e =>
      (Ret tt, s,
       [Printed (LogExecuting YOLO_COMMAND); Popen YOLO_COMMAND;
        Printed match e with
                | CalledProcessError => LogSubprocessError e
                | _ => LogUnhandled e
                end])
  | Ret _ =>
      let '(r, s', t) := locate_and_inspect env s in
      (Ret tt, s',
       [Printed (LogExecuting YOLO_COMMAND); Popen YOLO_COMMAND;
        Printed LogWaiting; ProcWait (proc_wait env); Printed LogCompleted;
        Sleep 500] ++ t ++
       match r with
       | Ret _ => []
       | Raise e =>
           [Printed match e with
                    | CalledProcessError => LogSubprocessError e
                    | _ => LogUnhandled e
                    end]
       end)
  end.
Proof.
  unfold try_except, detection_body, bind, print, emit, lift, process_wait.
  destruct (popen env YOLO_COMMAND) as [u | e]; [ | destruct e; reflexivity ].
  destruct (locate_and_inspect env s) as [[[[] | e] s'] t]; cbn.
  - now rewrite app_nil_r.
  - destruct e; cbn; rewrite <- ?app_assoc; reflexivity.
Qed.

(** The cycle behind a capture that answered [True]. *)
Lemma cycle_after_capture env s s1 pre :
  capture_single_frame env CAMERA_INDEX TEMP_IMAGE_PATH s = (Ret true, s1, pre) ->
  start_yolo_detection env s =
  let '(_, _, mid) := try_except (detection_body env) detection_handler s1 in
  let '(r, s2, cl) := cleanup env s1 in
  (match r with Ret _ => Ret tt | Raise e => Raise e end, s2,
   pre ++ mid ++ cl).
Proof.
  intros Hc. unfold start_yolo_detection. rewrite run_bind, Hc.
  cbn [negb]. unfold try_finally.
  destruct (guarded_run env s1) as (mid & Hg & _). rewrite Hg.
  destruct (cleanup env s1) as [[[[] | e] s2] cl]; reflexivity.
Qed.

(** The clean-up prints no alert and looks at no output. *)
Lemma cleanup_quiet env s :
  forallb (fun e => negb (is_alert e) && negb (is_inspection_event e))
          (trace_of (cleanup env s)) = true.
Proof.
  rewrite cleanup_run.
  destruct (temp_image s); [ | reflexivity ].
  destruct (os_remove env TEMP_IMAGE_PATH); reflexivity.
Qed.

Lemma no_alert_existsb t :
  forallb (fun e => negb (is_alert e)) t = true -> existsb is_alert t = false.
Proof.
  induction t as [| e t IH]; [ reflexivity | ].
  cbn. intros H. apply andb_true_iff in H. destruct H as [He Ht].
  apply negb_true_iff in He. now rewrite He, IH.
Qed.

Lemma silent_no_alert t :
  forallb is_silent t = true -> existsb is_alert t = false.
Proof.
  intros H. apply no_alert_existsb.
  apply (forallb_weaken is_silent); [ | exact H ].
  intros e He. unfold is_silent in He.
  apply andb_true_iff in He. now destruct He.
Qed.

(** [check_for_person] answers [True] exactly when the labels folder
    exists, can be listed, and one of its files matches. *)
Lemma check_for_person_true_iff env exp_folder s :
  result_of (check_for_person env exp_folder s) = Ret true <->
  path_exists env (path_join exp_folder "labels") = true /\
  exists names,
    listdir env (path_join exp_folder "labels") = Ret names /\
    existsb (label_matches env (path_join exp_folder "labels")) names = true.
Proof.
  unfold check_for_person, bind, os_path_exists, emit, print, lift, ret,
    result_of.
  rewrite labels_dir_is_not_temp.
  destruct (path_exists env (path_join exp_folder "labels")); cbn.
  2:{ split; [ discriminate | intros [H _]; discriminate H ]. }
  destruct (listdir env (path_join exp_folder "labels")) as [names | e]; cbn.
  2:{ split; [ discriminate | intros [_ (n & H & _)]; discriminate H ]. }
  destruct (scan_label_files_run env (path_join exp_folder "labels") names s)
    as [t H].
  rewrite H. cbn. split.
  - intros [= Hm]. split; [ reflexivity | now exists names ].
  - intros [_ (n & [= <-] & Hm)]. now rewrite Hm.
Qed.

(** The look for evidence returns exactly when, the crops folder being
    there, the creation time of every crop can be read. *)
Lemma evidence_returns_iff env exp_folder s :
  (exists ev, result_of (get_saved_evidence_path env exp_folder s) = Ret ev)
  <->
  (path_exists env (path_join (path_join exp_folder "crops") "person") = true ->
   forall c,
     In c (glob_glob env
             (path_join (path_join (path_join exp_folder "crops") "person")
                        "*.jpg")) ->
     exists t, getctime env c = Ret t).
Proof.
  unfold get_saved_evidence_path, bind, os_path_exists, emit, print, lift,
    ret, result_of.
  cbv zeta. rewrite crops_dir_is_not_temp.
  set (crops_dir := path_join (path_join exp_folder "crops") "person").
  set (crops := glob_glob env (path_join crops_dir "*.jpg")).
  destruct (path_exists env crops_dir); cbn.
  2:{ split; [ discriminate | intros _; now exists None ]. }
  destruct crops as [| c crops'] eqn:Hcrops; cbn.
  { split; [ intros _ _ c [] | intros _; now exists None ]. }
  split.
  - intros [ev Hev] _ g Hg.
    destruct (getctime env g) as [t | e] eqn:Hgt; [ now exists t | ].
    destruct (py_max_raise (getctime env) (c :: crops')) as [e' He'].
    { now exists g, e. }
    rewrite He' in Hev. discriminate Hev.
  - intros Hread.
    destruct (py_max_spec (getctime env) c crops' (Hread eq_refl))
      as (r & tr & Hr & _).
    rewrite Hr. now exists (Some r).
Qed.

(** [classify_and_alert] prints an alert exactly when a person is found
    and the look for evidence returns. *)
Lemma classify_alert_iff env folder s :
  existsb is_alert (trace_of (classify_and_alert env folder s)) = true <->
  result_of (check_for_person env folder s) = Ret true /\
  exists ev, result_of (get_saved_evidence_path env folder s) = Ret ev.
Proof.
  destruct (stage_check_for_person env folder s) as [Hs1 _].
  pose proof (no_alert_existsb _ (check_for_person_no_alert env folder s))
    as Hq1.
  destruct (stage_get_saved_evidence_path env folder s) as [Hs2 _].
  pose proof (no_alert_existsb _
                (get_saved_evidence_path_no_alert env folder s)) as Hq2.
  unfold classify_and_alert, bind, print, emit, result_of, state_of,
    trace_of in *.
  destruct (check_for_person env folder s) as [[[[ | ] | e] s1] t1];
    cbn [fst snd] in *; subst s1.
  - destruct (get_saved_evidence_path env folder s) as [[[ev | e] s2] t2];
      cbn [fst snd] in *; subst s2.
    + destruct ev as [p | ]; [ destruct (String.eqb p "") | ]; cbn;
        rewrite !existsb_app, Hq1, Hq2; cbn;
        (split; [ intros _; split; [ reflexivity | eexists; reflexivity ]
                | reflexivity ]).
    + cbn. rewrite existsb_app, Hq1, Hq2. cbn.
      split; [ discriminate | intros [_ [ev H]]; discriminate H ].
  - cbn. rewrite existsb_app, Hq1. cbn.
    split; [ discriminate | intros [H _]; discriminate H ].
  - cbn. rewrite Hq1.
    split; [ discriminate | intros [H _]; discriminate H ].
Qed.

(** X10. When a cycle alerts.  The trace of [start_yolo_detection] holds an
    alert exactly when the capture answered [True], the detector could be
    launched, the locator answered a folder, the labels folder of that
    folder exists, can be listed and lists a matching file, and no creation
    time of a crop fails to be read.  The exit status of the detector, the
    age of the folder and the presence of a crop play no part. *)
Theorem cycle_alerts_iff :
  forall env s,
    existsb is_alert (trace_of (start_yolo_detection env s)) = true <->
    capture_result env s = Ret true /\
    (exists u, popen env YOLO_COMMAND = Ret u) /\
    exists folder names,
      latest_of env (glob_glob env exp_search_path) = Ret (Some folder) /\
      folder <> "" /\
      path_exists env (path_join folder "labels") = true /\
      listdir env (path_join folder "labels") = Ret names /\
      existsb (label_matches env (path_join folder "labels")) names = true /\
      (path_exists env (path_join (path_join folder "crops") "person") = true ->
       forall c,
         In c (glob_glob env
                 (path_join (path_join (path_join folder "crops") "person")
                            "*.jpg")) ->
         exists t, getctime env c = Ret t).
Proof.
  intros env s.
  destruct (capture_run env CAMERA_INDEX TEMP_IMAGE_PATH s)
    as (b & s1 & pre & Hc & Hpre & _).
  pose proof (silent_no_alert pre
                (forallb_weaken _ _ _ capture_event_silent Hpre)) as Hquiet.
  assert (Hres : capture_result env s = Ret b)
    by (unfold capture_result; now rewrite Hc).
  rewrite Hres. destruct b.
  2:{ unfold start_yolo_detection. rewrite run_bind, Hc. cbn.
      rewrite existsb_app, Hquiet. cbn.
      split; [ discriminate | intros [H _]; discriminate H ]. }
  rewrite (cycle_after_capture env s s1 pre Hc), guarded_cases.
  pose proof (cleanup_quiet env s1) as Hcl.
  assert (Hcl' : existsb is_alert (trace_of (cleanup env s1)) = false).
  { apply no_alert_existsb. apply (forallb_weaken _ _ _ (fun e He =>
      proj1 (proj1 (andb_true_iff _ _) He)) Hcl). }
  destruct (popen env YOLO_COMMAND) as [u | e] eqn:Hlaunch.
  2:{ destruct (cleanup env s1) as [[r s2] cl]. cbn in *.
      rewrite existsb_app, Hquiet. cbn. rewrite Hcl'.
      split; [ destruct e; discriminate
             | intros [_ [[u H] _]]; discriminate H ]. }
  rewrite locate_and_inspect_cases.
  destruct (cleanup env s1) as [[r0 s2] cl]. cbn [trace_of snd] in Hcl'.
  destruct (latest_of env (glob_glob env exp_search_path))
    as [[folder | ] | e].
  - destruct (String.eqb folder "") eqn:Hempty.
    + cbn. rewrite existsb_app, Hquiet. cbn. rewrite Hcl'.
      split; [ discriminate | ].
      intros (_ & _ & f & names & [= <-] & Hne & _).
      apply String.eqb_eq in Hempty. contradiction.
    + pose proof (classify_alert_iff env folder s1) as Hclass.
      rewrite check_for_person_true_iff in Hclass.
      rewrite (evidence_returns_iff env folder s1) in Hclass.
      destruct (classify_and_alert env folder s1) as [[r s'] t].
      unfold trace_of in Hclass. cbn [snd] in Hclass.
      assert (Hmid :
                existsb is_alert
                  (match r with
                   | Ret _ => []
                   | Raise e =>
                       [Printed match e with
                                | CalledProcessError => LogSubprocessError e
                                | _ => LogUnhandled e
                                end]
                   end) = false)
        by (destruct r as [[] | e]; [ | destruct e ]; reflexivity).
      cbn. rewrite existsb_app, Hquiet. cbn.
      rewrite !existsb_app, Hcl', Hmid. cbn.
      rewrite !orb_false_r, Hclass.
      apply String.eqb_neq in Hempty. split.
      * intros [[Hex (names & Hls & Hm)] Hev].
        split; [ reflexivity | split; [ now exists u | ] ].
        exists folder, names. now repeat split.
      * intros (_ & _ & f & names & [= <-] & _ & Hex & Hls & Hm & Hev).
        split; [ split; [ exact Hex | now exists names ] | exact Hev ].
  - cbn. rewrite existsb_app, Hquiet. cbn. rewrite Hcl'.
    split; [ discriminate | ].
    intros (_ & _ & f & names & H & _). discriminate H.
  - cbn. rewrite existsb_app, Hquiet. cbn. rewrite Hcl'.
    split; [ discriminate | ].
    intros (_ & _ & f & names & H & _). discriminate H.
Qed.

(** ** The order of the clean-up *)

Lemma first_remove_unique l1 :
  forall l2 a b p q,
    forallb (fun e => negb (is_remove_event e)) l1 = true ->
    forallb (fun e => negb (is_remove_event e)) l2 = true ->
    l1 ++ Remove p :: l2 = a ++ Remove q :: b ->
    a = l1 /\ q = p /\ b = l2.
Proof.
  induction l1 as [| x l1 IH]; intros l2 a b p q H1 H2 H.
  - destruct a as [| y a]; cbn in H.
    + injection H as -> ->. now repeat split.
    + injection H as <- ->. rewrite forallb_app in H2. cbn in H2.
      now rewrite andb_false_r in H2.
  - cbn in H1. apply andb_true_iff in H1. destruct H1 as [Hx H1].
    destruct a as [| y a]; cbn in H.
    + injection H as -> _. discriminate Hx.
    + injection H as <- H.
      destruct (IH l2 a b p q H1 H2 H) as (-> & -> & ->). now repeat split.
Qed.

Lemma capture_event_no_remove e :
  is_capture_event e = true -> negb (is_remove_event e) = true.
Proof. destruct e as [[] | | | | | | | | | | | | | | ]; cbn; congruence. Qed.

Lemma stage_event_no_remove e :
  is_stage_event e = true -> negb (is_remove_event e) = true.
Proof. destruct e; cbn; congruence. Qed.

(** X11. The place of [os.remove] in a cycle.  It is called at most once,
    on the temporary image, and nothing of the cycle's work comes after
    it: what follows the call is empty (the call raised) or is the line of
    line 244, the reset of the flag and the standby line.  So the detector
    is never launched or waited for, and no output is looked at, once the
    image is deleted. *)
Theorem remove_comes_last :
  forall env s a p b,
    trace_of (start_yolo_detection env s) = a ++ Remove p :: b ->
    p = TEMP_IMAGE_PATH /\
    forallb (fun e => negb (is_remove_event e)) a = true /\
    (b = [] \/
     b = [Printed (LogCleanedUp TEMP_IMAGE_PATH); SetDetecting false;
          Printed LogStandby]).
Proof.
  intros env s a p b.
  destruct (cycle_shape env s) as [pre Hc Hpre | pre mid Hc Hpre Hmid
                                  | pre mid Hc Hpre Hmid
                                  | pre mid e Hc Hpre Hmid He];
    unfold trace_of; cbn [snd]; intros H;
    pose proof (forallb_weaken _ _ _ capture_event_no_remove Hpre) as Hp.
  - exfalso.
    assert (Hall : forallb (fun e => negb (is_remove_event e))
                     (pre ++ [SetDetecting false; Printed LogNoFrame]) = true)
      by (rewrite forallb_app, Hp; reflexivity).
    rewrite H, forallb_app in Hall. cbn in Hall.
    now rewrite andb_false_r in Hall.
  - pose proof (forallb_weaken _ _ _ stage_event_no_remove Hmid) as Hm.
    change (pre ++ mid ++
            [PathExists TEMP_IMAGE_PATH; Remove TEMP_IMAGE_PATH;
             Printed (LogCleanedUp TEMP_IMAGE_PATH); SetDetecting false;
             Printed LogStandby])
      with (pre ++ mid ++ [PathExists TEMP_IMAGE_PATH] ++
            Remove TEMP_IMAGE_PATH ::
            [Printed (LogCleanedUp TEMP_IMAGE_PATH); SetDetecting false;
             Printed LogStandby]) in H.
    rewrite !app_assoc in H.
    apply first_remove_unique in H;
      [ | rewrite !forallb_app, Hp, Hm; reflexivity | reflexivity ].
    destruct H as (-> & -> & ->).
    split; [ reflexivity | split; [ | now right ] ].
    rewrite !forallb_app, Hp, Hm. reflexivity.
  - exfalso.
    pose proof (forallb_weaken _ _ _ stage_event_no_remove Hmid) as Hm.
    assert (Hall : forallb (fun e => negb (is_remove_event e))
                     (pre ++ mid ++
                      [PathExists TEMP_IMAGE_PATH; SetDetecting false;
                       Printed LogStandby]) = true)
      by (rewrite !forallb_app, Hp, Hm; reflexivity).
    rewrite H, forallb_app in Hall. cbn in Hall.
    now rewrite andb_false_r in Hall.
  - pose proof (forallb_weaken _ _ _ stage_event_no_remove Hmid) as Hm.
    change (pre ++ mid ++
            [PathExists TEMP_IMAGE_PATH; Remove TEMP_IMAGE_PATH])
      with (pre ++ mid ++ [PathExists TEMP_IMAGE_PATH] ++
            Remove TEMP_IMAGE_PATH :: []) in H.
    rewrite !app_assoc in H.
    apply first_remove_unique in H;
      [ | rewrite !forallb_app, Hp, Hm; reflexivity | reflexivity ].
    destruct H as (-> & -> & ->).
    split; [ reflexivity | split; [ | now left ] ].
    rewrite !forallb_app, Hp, Hm. reflexivity.
Qed.

(** A cycle that detects a person: the trace around the removal. *)
Lemma remove_comes_last_witness :
  exists a b,
    trace_of (start_yolo_detection sample_env idle)
    = a ++ Remove TEMP_IMAGE_PATH :: b /\
    forallb (fun e => negb (is_remove_event e)) a = true /\
    (b = [] \/
     b = [Printed (LogCleanedUp TEMP_IMAGE_PATH); SetDetecting false;
          Printed LogStandby]).
Proof.
  exists (firstn 26 (trace_of (start_yolo_detection sample_env idle))),
         (skipn 27 (trace_of (start_yolo_detection sample_env idle))).
  assert (H : trace_of (start_yolo_detection sample_env idle)
              = firstn 26 (trace_of (start_yolo_detection sample_env idle))
                ++ Remove TEMP_IMAGE_PATH
                :: skipn 27 (trace_of (start_yolo_detection sample_env idle)))
    by reflexivity.
  split; [ exact H | ].
  exact (proj2 (remove_comes_last sample_env idle _ _ _ H)).
Defined.

(** ** The callback and the listening loop *)

Lemma emits_imwrite P env path f :
  P (Imwrite path) = true -> emits P (imwrite env path f).
Proof.
  intros H s. unfold imwrite, trace_of.
  destruct (cv2_imwrite env path f) as [[ | ] | e]; cbn; now rewrite H.
Qed.

Lemma emits_remove P env path :
  P (Remove path) = true -> emits P (remove env path).
Proof.
  intros H s. unfold remove, trace_of.
  destruct (os_remove env path); cbn; now rewrite H.
Qed.

Lemma emits_assign P b :
  P (SetDetecting b) = true -> emits P (assign_is_detecting b).
Proof. intros H s. cbn. now rewrite H. Qed.

Lemma emits_process_wait P env :
  P (ProcWait (proc_wait env)) = true -> emits P (process_wait env).
Proof. intros H s. cbn. now rewrite H. Qed.

Lemma emits_try_finally {A} P (m : M A) (f : M unit) :
  emits P m -> emits P f -> emits P (try_finally m f).
Proof.
  intros Hm Hf s. unfold try_finally. specialize (Hm s). unfold trace_of in *.
  destruct (m s) as [[r s1] t1]. specialize (Hf s1). unfold trace_of in Hf.
  destruct (f s1) as [[[u | e] s2] t2]; cbn in *;
    now rewrite forallb_app, Hm, Hf.
Qed.

(** A cycle neither accepts nor turns away a trigger: both are done by
    [on_message] alone. *)
Lemma cycle_no_trigger_event env :
  emits (fun e => negb (is_accept_event e) && negb (is_reject_event e))
        (start_yolo_detection env).
Proof.
  assert (Hscan : forall labels_dir names,
             emits (fun e => negb (is_accept_event e)
                             && negb (is_reject_event e))
                   (scan_label_files env labels_dir names)).
  { intros labels_dir names.
    induction names as [| label_file rest IH]; cbn [scan_label_files].
    - apply emits_ret.
    - destruct (endswith label_file ".txt"); [ | exact IH ].
      apply emits_bind.
      + unfold inspect_label_file, print. emits_all.
      + intros [ | ]; [ apply emits_ret | exact IH ]. }
  unfold start_yolo_detection.
  apply emits_bind.
  { unfold capture_single_frame, capture_body, print.
    repeat first [ apply emits_imwrite; reflexivity | emits_step ]. }
  intros ok. destruct (negb ok).
  { unfold print.
    repeat first [ apply emits_assign; reflexivity | emits_step ]. }
  apply emits_try_finally.
  - apply emits_try_except; [ | intros e; destruct e; unfold print; emits_all ].
    unfold detection_body, locate_and_inspect, classify_and_alert,
      get_latest_exp_folder, get_saved_evidence_path, check_for_person, print.
    repeat first [ apply Hscan
                 | apply emits_process_wait; reflexivity
                 | emits_step ].
  - unfold cleanup, print.
    repeat first [ apply emits_assign; reflexivity
                 | apply emits_remove; reflexivity
                 | emits_step ].
Qed.

(** X12. When [on_message] starts a cycle.  The flag is set, so a cycle
    is started, exactly when the message is on the trigger topic, its
    payload decodes to [ACTIVATE], and no cycle is in flight.  In every
    other case the callback changes no state and does nothing but print:
    it calls neither the camera, the detector nor the filesystem. *)
Theorem on_message_starts_cycle_iff :
  forall env msg s,
    (existsb is_accept_event (trace_of (on_message env msg s)) = true <->
     topic msg = AI_TRIGGER_TOPIC /\ payload_decode msg = Ret "ACTIVATE" /\
     is_detecting s = false) /\
    (existsb is_accept_event (trace_of (on_message env msg s)) = false ->
     state_of (on_message env msg s) = s /\
     forallb is_print_event (trace_of (on_message env msg s)) = true).
Proof.
  intros env msg s.
  unfold on_message, bind, lift, print, emit, get_state, ret,
    assign_is_detecting, trace_of, state_of.
  destruct (payload_decode msg) as [payload_str | e]; cbn.
  2:{ split; [ split; [ discriminate | intros (_ & H & _); discriminate H ]
             | now split ]. }
  destruct (String.eqb_spec (topic msg) AI_TRIGGER_TOPIC) as [Ht | Ht]; cbn.
  2:{ split; [ split; [ discriminate | intros (H & _); contradiction ]
             | now split ]. }
  destruct (String.eqb_spec payload_str "ACTIVATE") as [-> | Hp]; cbn.
  2:{ split; [ split; [ discriminate | ] | now split ].
      intros (_ & [= H] & _). contradiction. }
  destruct (is_detecting s) eqn:Hd; cbn.
  { split; [ split; [ discriminate | intros (_ & _ & H); discriminate H ]
           | now split ]. }
  destruct (start_yolo_detection env (set_is_detecting true s))
    as [[r s'] t]; cbn.
  split; [ split; [ now intros _ | reflexivity ] | discriminate ].
Qed.

(** A message with another payload; and the trigger with a cycle in
    flight. *)
Lemma on_message_starts_cycle_iff_witness :
  state_of (on_message sample_env chatter idle) = idle /\
  forallb is_print_event (trace_of (on_message sample_env chatter idle))
  = true /\
  existsb is_accept_event (trace_of (on_message sample_env trigger idle))
  = true.
Proof.
  split; [ | split ].
  - apply (proj2 (on_message_starts_cycle_iff sample_env chatter idle)).
    reflexivity.
  - apply (proj2 (on_message_starts_cycle_iff sample_env chatter idle)).
    reflexivity.
  - apply (proj1 (on_message_starts_cycle_iff sample_env trigger idle)).
    repeat split.
Defined.

(** X13. A payload that cannot be decoded ends the listening loop: line
    149 stands outside every handler, so the exception leaves [on_message]
    before anything is printed, the state is as it was, and no message
    behind it is handled. *)
Theorem undecodable_payload_ends_loop :
  forall env msg e rest s,
    payload_decode msg = Raise e ->
    on_message env msg s = (Raise e, s, []) /\
    loop_forever ((env, msg) :: rest) s = (Raise e, s, []).
Proof.
  intros env msg e rest s Hdec.
  assert (H : on_message env msg s = (Raise e, s, []))
    by (unfold on_message, bind, lift; now rewrite Hdec).
  split; [ exact H | ].
  cbn [loop_forever]. now rewrite run_bind, H.
Qed.

(** A garbled message in front of a trigger: the trigger is not handled. *)
Lemma undecodable_payload_ends_loop_witness :
  payload_decode garbled = Raise UnicodeDecodeError /\
  loop_forever [(sample_env, garbled); (sample_env, trigger)] idle
  = (Raise UnicodeDecodeError, idle, []).
Proof.
  split; [ reflexivity | ].
  apply (proj2 (undecodable_payload_ends_loop sample_env garbled
                  UnicodeDecodeError [(sample_env, trigger)] idle
                  eq_refl)).
Defined.

Lemma no_trigger_event_counts t :
  forallb (fun e => negb (is_accept_event e) && negb (is_reject_event e)) t
  = true ->
  filter is_accept_event t = [] /\ existsb is_reject_event t = false.
Proof.
  induction t as [| e t IH]; [ now split | ].
  cbn. intros H. apply andb_true_iff in H. destruct H as [He Ht].
  apply andb_true_iff in He. destruct He as [Ha Hr].
  apply negb_true_iff in Ha, Hr. rewrite Ha, Hr.
  exact (IH Ht).
Qed.

(** X14. In the listening loop every trigger runs its own cycle, as long
    as no clean-up raises: [on_message] returns only when the cycle it
    started is over and the flag is clear again, so the next trigger of the
    queue finds the flag clear.  Of [n] triggers delivered one after the
    other, [n] are accepted and none is turned away; the loop raises
    nothing and ends with the flag clear. *)
Theorem every_trigger_runs_a_cycle :
  forall envs s,
    is_detecting s = false ->
    (forall env, In env envs -> os_remove env TEMP_IMAGE_PATH = Ret tt) ->
    result_of (loop_forever (map (fun env => (env, trigger)) envs) s)
    = Ret tt /\
    is_detecting
      (state_of (loop_forever (map (fun env => (env, trigger)) envs) s))
    = false /\
    length (filter is_accept_event
              (trace_of
                 (loop_forever (map (fun env => (env, trigger)) envs) s)))
    = length envs /\
    existsb is_reject_event
      (trace_of (loop_forever (map (fun env => (env, trigger)) envs) s))
    = false.
Proof.
  induction envs as [| env rest IH]; intros s Hidle Hrm.
  - cbn. now repeat split.
  - cbn [map loop_forever]. rewrite run_bind.
    rewrite (on_message_accepts env s Hidle).
    destruct (cycle_contained env (set_is_detecting true s)
                (Hrm env (or_introl eq_refl))) as [Hres Hflag].
    destruct (no_trigger_event_counts _
                (cycle_no_trigger_event env (set_is_detecting true s)))
      as [Hacc Hrej].
    unfold result_of, state_of, trace_of in *.
    destruct (start_yolo_detection env (set_is_detecting true s))
      as [[r s'] t]; cbn [fst snd] in *. subst r.
    destruct (IH s' Hflag (fun e He => Hrm e (or_intror He)))
      as (Hr & Hs & Hn & Hx).
    destruct (loop_forever (map (fun env0 => (env0, trigger)) rest) s')
      as [[r2 s2] t2]; cbn [fst snd] in *.
    repeat split; try assumption.
    + cbn. rewrite filter_app, Hacc. cbn. now rewrite Hn.
    + cbn. rewrite existsb_app, Hrej. exact Hx.
Qed.

(** Three triggers, the second with a busy camera. *)
Lemma every_trigger_runs_a_cycle_witness :
  length (filter is_accept_event
            (trace_of
               (loop_forever
                  (map (fun env => (env, trigger))
                       [sample_env; camera_busy_env; bicycle_env]) idle)))
  = 3%nat /\
  existsb is_reject_event
    (trace_of
       (loop_forever
          (map (fun env => (env, trigger))
               [sample_env; camera_busy_env; bicycle_env]) idle))
  = false.
Proof.
  assert (Hrm : forall env,
             In env [sample_env; camera_busy_env; bicycle_env] ->
             os_remove env TEMP_IMAGE_PATH = Ret tt)
    by (intros env [<- | [<- | [<- | []]]]; reflexivity).
  destruct (every_trigger_runs_a_cycle
              [sample_env; camera_busy_env; bicycle_env] idle eq_refl Hrm)
    as (_ & _ & Hn & Hx).
  split; [ exact Hn | exact Hx ].
Defined.

(** A message met with the flag set changes no state and only prints. *)
Lemma on_message_busy env msg s :
  is_detecting s = true ->
  state_of (on_message env msg s) = s /\
  forallb is_print_event (trace_of (on_message env msg s)) = true /\
  forallb (fun e => negb (is_flag_event e)) (trace_of (on_message env msg s))
  = true.
Proof.
  intros Hbusy.
  unfold on_message, bind, lift, print, emit, get_state, ret, trace_of,
    state_of.
  destruct (payload_decode msg) as [payload_str | e]; cbn;
    [ | now repeat split ].
  destruct (String.eqb (topic msg) AI_TRIGGER_TOPIC
            && String.eqb payload_str "ACTIVATE"); cbn;
    [ | now repeat split ].
  rewrite Hbusy. cbn. now repeat split.
Qed.

(** X15. A flag that stays set is never cleared by the loop.  The only
    assignments of [False] to [is_detecting] stand in
    [start_yolo_detection], and [on_message] does not call it while the
    flag is set: from a state with the flag set (as a clean-up that raised
    leaves it), whatever messages arrive, the state stays as it is, no cycle
    runs, and nothing but lines are printed. *)
Theorem set_flag_is_never_cleared :
  forall deliveries s,
    is_detecting s = true ->
    state_of (loop_forever deliveries s) = s /\
    forallb is_print_event (trace_of (loop_forever deliveries s)) = true /\
    forallb (fun e => negb (is_flag_event e))
            (trace_of (loop_forever deliveries s)) = true.
Proof.
  induction deliveries as [| [env msg] rest IH]; intros s Hbusy.
  - now repeat split.
  - cbn [loop_forever]. rewrite run_bind.
    destruct (on_message_busy env msg s Hbusy) as (Hs & Hp & Hf).
    destruct (IH s Hbusy) as (Hs' & Hp' & Hf').
    unfold state_of, trace_of in *.
    destruct (on_message env msg s) as [[[u | e] s1] t1]; cbn [fst snd] in *;
      subst s1; [ | now repeat split ].
    destruct (loop_forever rest s) as [[r s2] t2]; cbn [fst snd] in *.
    subst s2. rewrite !forallb_app, Hp, Hp', Hf, Hf'. now repeat split.
Qed.

(** The flag is set and three triggers arrive. *)
Lemma set_flag_is_never_cleared_witness :
  state_of (loop_forever
              [(sample_env, trigger); (bicycle_env, trigger);
               (sample_env, chatter)] detecting) = detecting /\
  forallb is_print_event
    (trace_of (loop_forever
                 [(sample_env, trigger); (bicycle_env, trigger);
                  (sample_env, chatter)] detecting)) = true.
Proof.
  destruct (set_flag_is_never_cleared
              [(sample_env, trigger); (bicycle_env, trigger);
               (sample_env, chatter)] detecting eq_refl)
    as (Hs & Hp & _).
  split; [ exact Hs | exact Hp ].
Defined.

(** ** The window of the locator under a steady clock *)

(** With one clock reading for all candidates, the comprehension of
    line 70 is a filter. *)
Lemma recent_files_steady env now l :
  (forall k, time_time env k = now) ->
  forall k rec,
    recent_files env k l = Ret rec -> rec = filter (within_window env now) l.
Proof.
  intros Hclock. induction l as [| f l IH]; intros k rec H.
  - now injection H as <-.
  - cbn [recent_files filter] in *. unfold within_window at 1.
    destruct (getctime env f) as [c | e]; [ | discriminate H ].
    destruct (recent_files env (S k) l) as [r | e] eqn:Hr; [ | discriminate H ].
    injection H as <-. rewrite Hclock, (IH (S k) r Hr). reflexivity.
Qed.

(** A best element above the window is beaten by the same candidates
    whether or not those outside the window are dropped. *)
Lemma max_by_key_filter_above env now l :
  forall best kbest,
    (forall f, In f l -> exists c, getctime env f = Ret c) ->
    (kbest > now - RECENT_WINDOW)%Z ->
    max_by_key (getctime env) best kbest (filter (within_window env now) l)
    = max_by_key (getctime env) best kbest l.
Proof.
  induction l as [| f l IH]; intros best kbest Hread Hk; [ reflexivity | ].
  destruct (Hread f (or_introl eq_refl)) as [c Hc].
  assert (Hread' : forall g, In g l -> exists c, getctime env g = Ret c)
    by (intros g Hg; apply Hread; now right).
  cbn [filter max_by_key]. unfold within_window at 1. rewrite Hc.
  destruct (Z.gtb_spec c (now - RECENT_WINDOW)) as [Hin | Hout].
  - cbn [max_by_key]. rewrite Hc.
    destruct (Z.gtb_spec c kbest); apply IH; auto; lia.
  - destruct (Z.gtb_spec c kbest); [ lia | ]. now apply IH.
Qed.

(** A best element outside the window is beaten by every candidate within
    it. *)
Lemma py_max_filter_below env now l :
  forall best kbest,
    (forall f, In f l -> exists c, getctime env f = Ret c) ->
    (kbest <= now - RECENT_WINDOW)%Z ->
    filter (within_window env now) l <> [] ->
    py_max (getctime env) (filter (within_window env now) l)
    = max_by_key (getctime env) best kbest l.
Proof.
  induction l as [| f l IH]; intros best kbest Hread Hk Hne;
    [ now destruct Hne | ].
  destruct (Hread f (or_introl eq_refl)) as [c Hc].
  assert (Hread' : forall g, In g l -> exists c, getctime env g = Ret c)
    by (intros g Hg; apply Hread; now right).
  cbn [filter max_by_key] in *. unfold within_window in Hne at 1.
  unfold within_window at 1. rewrite Hc in *.
  destruct (Z.gtb_spec c (now - RECENT_WINDOW)) as [Hin | Hout].
  - unfold py_max. rewrite Hc.
    destruct (Z.gtb_spec c kbest); [ | lia ].
    apply max_by_key_filter_above; [ exact Hread' | lia ].
  - destruct (Z.gtb_spec c kbest); apply IH; auto; lia.
Qed.

(** X16. Under a steady clock the 30-second window decides nothing.  When
    every call of [time.time()] of one run returns the same value, the
    locator answers what [max(list_of_files, key=os.path.getctime)] answers
    on the whole listing: the first candidate with the greatest creation
    time, within the window or not; and none when there is no candidate or
    a creation time cannot be read. *)
Theorem steady_clock_window_is_idle :
  forall env s now,
    (forall k, time_time env k = now) ->
    result_of (get_latest_exp_folder env s) =
    Ret match py_max (getctime env) (glob_glob env exp_search_path) with
        | Ret f => Some f
        | Raise _ => None
        end.
Proof.
  intros env s now Hclock.
  destruct (get_latest_exp_folder_run env s) as [t Hrun].
  rewrite Hrun. unfold result_of. cbn [fst]. f_equal. clear Hrun.
  unfold latest_of.
  destruct (glob_glob env exp_search_path) as [| f0 l'] eqn:Hl;
    [ reflexivity | ].
  set (l := f0 :: l') in *.
  destruct (recent_files env 0 l) as [rec | e] eqn:Hrec.
  2:{ destruct (recent_files_raise env l 0%nat e Hrec) as (f & e' & Hf & He).
      destruct (py_max_raise (getctime env) l) as [e2 H2];
        [ now exists f, e' | ].
      now rewrite H2. }
  pose proof (recent_files_readable env l 0%nat rec Hrec) as Hread.
  pose proof (recent_files_steady env now l Hclock 0%nat rec Hrec) as Hfilter.
  destruct rec as [| r0 rec'].
  { destruct (py_max (getctime env) l); reflexivity. }
  rewrite Hfilter.
  assert (Hne : filter (within_window env now) l <> [])
    by (rewrite <- Hfilter; discriminate).
  assert (Hsame : py_max (getctime env) (filter (within_window env now) l)
                  = py_max (getctime env) l).
  { subst l. destruct (Hread f0 (or_introl eq_refl)) as [c Hc].
    cbn [filter] in *. unfold within_window in Hne at 1.
    unfold within_window at 1. unfold py_max at 2. rewrite Hc in *.
    assert (Hread' : forall g, In g l' -> exists c, getctime env g = Ret c)
      by (intros g Hg; apply Hread; now right).
    destruct (Z.gtb_spec c (now - RECENT_WINDOW)) as [Hin | Hout].
    - unfold py_max. rewrite Hc.
      apply max_by_key_filter_above; [ exact Hread' | lia ].
    - apply py_max_filter_below; [ exact Hread' | lia | exact Hne ]. }
  rewrite Hsame.
  destruct (py_max (getctime env) l); reflexivity.
Qed.

(** The two folders of the example under the steady clock of the concrete
    worlds. *)
Lemma steady_clock_window_is_idle_witness :
  (forall k, time_time two_runs_env k = 100000%Z) /\
  result_of (get_latest_exp_folder two_runs_env idle) =
  Ret match py_max (getctime two_runs_env)
              (glob_glob two_runs_env exp_search_path) with
      | Ret f => Some f
      | Raise _ => None
      end.
Proof.
  split; [ reflexivity | ].
  apply (steady_clock_window_is_idle two_runs_env idle 100000%Z).
  reflexivity.
Defined.

(** ** Which files the inspector touches *)

Lemma inspect_trace_access env labels_dir label_file s q :
  (In (OpenRead q)
      (trace_of
         (try_except (inspect_label_file env labels_dir label_file)
            (fun e => print (LogLabelReadError label_file e);; ret false) s)) ->
   q = path_join labels_dir label_file /\
   exists n, getsize env (path_join labels_dir label_file) = Ret (S n)) /\
  (In (Getsize q)
      (trace_of
         (try_except (inspect_label_file env labels_dir label_file)
            (fun e => print (LogLabelReadError label_file e);; ret false) s)) ->
   q = path_join labels_dir label_file).
Proof.
  unfold inspect_label_file, try_except, bind, emit, lift, print, ret,
    trace_of.
  destruct (getsize env (path_join labels_dir label_file)) as [[| n] | e];
    cbn; try (split; intros H; in_cases H; now injection H as <-).
  destruct (read_text env (path_join labels_dir label_file)) as [c | e];
    cbn; (split; intros H; in_cases H; injection H as <-);
    try reflexivity; (split; [ reflexivity | now exists n ]).
Qed.

(** X17. The files the loop of lines 112-129 touches.  A file is sized
    only when it is listed and its name ends in [.txt]; it is opened only
    when, besides, its size was read and is not zero.  So a file with
    another extension is never sized, and an empty annotation file is never
    opened. *)
Theorem scan_touches_only_label_files :
  forall env labels_dir names s q,
    (In (Getsize q) (trace_of (scan_label_files env labels_dir names s)) ->
     exists name,
       In name names /\ q = path_join labels_dir name /\
       endswith name ".txt" = true) /\
    (In (OpenRead q) (trace_of (scan_label_files env labels_dir names s)) ->
     exists name n,
       In name names /\ q = path_join labels_dir name /\
       endswith name ".txt" = true /\
       getsize env (path_join labels_dir name) = Ret (S n)).
Proof.
  intros env labels_dir names s q. revert s.
  induction names as [| label_file rest IH]; intros s.
  - cbn. split; intros [].
  - cbn [scan_label_files].
    destruct (endswith label_file ".txt") eqn:Htxt.
    2:{ destruct (IH s) as [Hsize Hopen]. split.
        - intros H. destruct (Hsize H) as (name & Hin & Hq & He).
          exists name. split; [ now right | now split ].
        - intros H. destruct (Hopen H) as (name & n & Hin & Hq & He & Hn).
          exists name, n. split; [ now right | now repeat split ]. }
    rewrite run_bind.
    pose proof (inspect_trace_access env labels_dir label_file s q)
      as [Hfile_open Hfile_size].
    unfold trace_of in *.
    destruct (try_except (inspect_label_file env labels_dir label_file)
                (fun e => print (LogLabelReadError label_file e);; ret false)
                s) as [[[found | e] s1] t1]; cbn [snd] in *.
    2:{ split.
        - intros H. exists label_file.
          split; [ now left | split; [ now apply Hfile_size | exact Htxt ] ].
        - intros H. destruct (Hfile_open H) as [Hq [n Hn]].
          exists label_file, n. split; [ now left | now repeat split ]. }
    destruct (IH s1) as [Hsize Hopen].
    destruct found.
    + cbn. rewrite app_nil_r. split.
      * intros H. exists label_file.
        split; [ now left | split; [ now apply Hfile_size | exact Htxt ] ].
      * intros H. destruct (Hfile_open H) as [Hq [n Hn]].
        exists label_file, n. split; [ now left | now repeat split ].
    + destruct (scan_label_files env labels_dir rest s1) as [[r s2] t2];
        cbn [snd] in *.
      split; intros H; apply in_app_or in H; destruct H as [H | H].
      * exists label_file.
        split; [ now left | split; [ now apply Hfile_size | exact Htxt ] ].
      * destruct (Hsize H) as (name & Hin & Hq & He).
        exists name. split; [ now right | now split ].
      * destruct (Hfile_open H) as [Hq [n Hn]].
        exists label_file, n. split; [ now left | now repeat split ].
      * destruct (Hopen H) as (name & n & Hin & Hq & He & Hn).
        exists name, n. split; [ now right | now repeat split ].
Qed.

(** The folder with four files: the person file is opened. *)
Lemma scan_touches_only_label_files_witness :
  In (OpenRead (path_join (path_join exp_new "labels") "person.txt"))
     (trace_of
        (scan_label_files mixed_labels_env (path_join exp_new "labels")
           ["empty.txt"; "car.txt"; "person.txt"; "later.txt"] idle)) /\
  exists name n,
    In name ["empty.txt"; "car.txt"; "person.txt"; "later.txt"] /\
    path_join (path_join exp_new "labels") "person.txt"
    = path_join (path_join exp_new "labels") name /\
    endswith name ".txt" = true /\
    getsize mixed_labels_env (path_join (path_join exp_new "labels") name)
    = Ret (S n).
Proof.
  assert (H : In (OpenRead (path_join (path_join exp_new "labels")
                              "person.txt"))
                 (trace_of
                    (scan_label_files mixed_labels_env
                       (path_join exp_new "labels")
                       ["empty.txt"; "car.txt"; "person.txt"; "later.txt"]
                       idle)))
    by (vm_compute; tauto).
  split; [ exact H | ].
  exact (proj2 (scan_touches_only_label_files mixed_labels_env
                  (path_join exp_new "labels")
                  ["empty.txt"; "car.txt"; "person.txt"; "later.txt"] idle
                  _) H).
Defined.

(** ** A capture that stored nothing *)

(** X18. The answer of [cv2.imwrite] is not looked at.  When the camera
    delivers a frame and the image writer answers [False], with no image
    on disk, the cycle goes on as after a stored frame: the detector is
    launched on the path of the image that does not exist, the clean-up
    finds nothing to remove, and the cycle ends normally with the flag
    clear. *)
Theorem detector_runs_without_image :
  forall env s i cap f,
    py_int env CAMERA_INDEX = Ret i ->
    cv2_VideoCapture env i = Ret cap ->
    isOpened cap = true ->
    read cap = Ret (true, f) ->
    release cap = Ret tt ->
    cv2_imwrite env TEMP_IMAGE_PATH f = Ret false ->
    temp_image s = false ->
    result_of (start_yolo_detection env s) = Ret tt /\
    state_of (start_yolo_detection env s)
    = {| is_detecting := false; temp_image := false |} /\
    In (Popen YOLO_COMMAND) (trace_of (start_yolo_detection env s)) /\
    forallb (fun e => negb (is_remove_event e))
            (trace_of (start_yolo_detection env s)) = true.
Proof.
  intros env s i cap f Hi Hcap Hopen Hread Hrel Hw Htemp.
  assert (Hc : capture_single_frame env CAMERA_INDEX TEMP_IMAGE_PATH s =
               (Ret true, s,
                [Printed (LogCaptureAttempt CAMERA_INDEX); VideoCapture i;
                 Sleep 1500; CapRead; CapRelease; Imwrite TEMP_IMAGE_PATH;
                 Printed (LogFrameSaved TEMP_IMAGE_PATH)])).
  { unfold capture_single_frame, capture_body, try_except, bind, print, emit,
      lift, ret, imwrite.
    rewrite Hi. cbn. rewrite Hcap. cbn. rewrite Hopen. cbn.
    rewrite Hread. cbn. rewrite Hrel. cbn. rewrite Hw. reflexivity. }
  rewrite (cycle_after_capture env s s _ Hc).
  destruct (guarded_run env s) as (mid & Hg & Hmid).
  pose proof (guarded_cases env s) as Hcases. rewrite Hg in Hcases.
  rewrite Hg, cleanup_run, Htemp.
  unfold result_of, state_of, trace_of. cbn [fst snd].
  split; [ reflexivity | split; [ | split ] ].
  - destruct s as [d t]. cbn in Htemp. now subst t.
  - apply in_or_app. right. apply in_or_app. left.
    destruct (popen env YOLO_COMMAND).
    + destruct (locate_and_inspect env s) as [[r s'] t].
      injection Hcases as _ ->. right. now left.
    + injection Hcases as ->. right. now left.
  - rewrite !forallb_app.
    rewrite (forallb_weaken _ _ _ stage_event_no_remove Hmid). reflexivity.
Qed.

(** The world in which nothing can be written. *)
Lemma detector_runs_without_image_witness :
  cv2_imwrite unwritable_env TEMP_IMAGE_PATH 7 = Ret false /\
  temp_image idle = false /\
  In (Popen YOLO_COMMAND) (trace_of (start_yolo_detection unwritable_env idle))
  /\
  forallb (fun e => negb (is_remove_event e))
          (trace_of (start_yolo_detection unwritable_env idle)) = true.
Proof.
  split; [ reflexivity | split; [ reflexivity | ] ].
  exact (proj2 (proj2 (detector_runs_without_image unwritable_env idle 1%Z
                         working_camera 7 eq_refl eq_refl eq_refl eq_refl
                         eq_refl eq_refl eq_refl))).
Defined.

(** ** The guard of line 153 *)

(** A cycle that returns has cleared the flag. *)
Lemma cycle_returns_clear env s u :
  result_of (start_yolo_detection env s) = Ret u ->
  is_detecting (state_of (start_yolo_detection env s)) = false.
Proof.
  destruct (cycle_shape env s); unfold result_of, state_of; cbn [fst snd];
    try reflexivity.
  discriminate.
Qed.

(** A message met with the flag clear is not turned away; when the
    callback returns the flag is clear again, and a cycle has run exactly
    when the message was a trigger. *)
Lemma on_message_from_idle env msg s :
  is_detecting s = false ->
  existsb is_reject_event (trace_of (on_message env msg s)) = false /\
  forall u,
    result_of (on_message env msg s) = Ret u ->
    is_detecting (state_of (on_message env msg s)) = false /\
    length (filter is_accept_event (trace_of (on_message env msg s)))
    = if is_trigger msg then 1%nat else 0%nat.
Proof.
  intros Hidle.
  unfold on_message, is_trigger, bind, lift, print, emit, get_state, ret,
    assign_is_detecting, trace_of, state_of, result_of.
  destruct (payload_decode msg) as [payload_str | e]; cbn;
    [ | split; [ reflexivity | discriminate ] ].
  destruct (String.eqb (topic msg) AI_TRIGGER_TOPIC
            && String.eqb payload_str "ACTIVATE") eqn:Hcond; cbn.
  2:{ split; [ reflexivity | intros u _; now split ]. }
  rewrite Hidle. cbn.
  destruct (no_trigger_event_counts _
              (cycle_no_trigger_event env (set_is_detecting true s)))
    as [Hacc Hrej].
  pose proof (cycle_returns_clear env (set_is_detecting true s)) as Hclear.
  unfold result_of, state_of, trace_of in *.
  destruct (start_yolo_detection env (set_is_detecting true s))
    as [[r s'] t]; cbn [fst snd] in *.
  split; [ exact Hrej | ].
  intros u Hu. split; [ exact (Hclear u Hu) | ].
  cbn [filter is_accept_event]. now rewrite Hacc.
Qed.

(** From a clear flag the loop never takes the branch of line 159: every
    message finds the flag clear. *)
Lemma loop_from_idle deliveries :
  forall s,
    is_detecting s = false ->
    existsb is_reject_event (trace_of (loop_forever deliveries s)) = false /\
    forall u,
      result_of (loop_forever deliveries s) = Ret u ->
      is_detecting (state_of (loop_forever deliveries s)) = false /\
      length (filter is_accept_event (trace_of (loop_forever deliveries s)))
      = length (filter is_trigger (map snd deliveries)).
Proof.
  induction deliveries as [| [env msg] rest IH]; intros s Hidle.
  - cbn. now repeat split.
  - cbn [loop_forever map snd filter]. rewrite run_bind.
    destruct (on_message_from_idle env msg s Hidle) as [Hrej Hret].
    unfold result_of, state_of, trace_of in *.
    destruct (on_message env msg s) as [[[u1 | e] s1] t1]; cbn [fst snd] in *;
      [ | split; [ exact Hrej | discriminate ] ].
    destruct (Hret u1 eq_refl) as [Hclear Hcount].
    destruct (IH s1 Hclear) as [Hrej' Hret'].
    destruct (loop_forever rest s1) as [[r s2] t2]; cbn [fst snd] in *.
    split; [ now rewrite existsb_app, Hrej, Hrej' | ].
    intros u Hu. destruct (Hret' u Hu) as [Hclear' Hcount'].
    split; [ exact Hclear' | ].
    rewrite filter_app, length_app, Hcount, Hcount'.
    destruct (is_trigger msg); reflexivity.
Qed.

(** C1. The guard of lines 153-159 never turns a trigger away.
    [on_message] runs the whole cycle before it returns, so a trigger that
    reaches the listener while a cycle runs waits until the cycle has
    cleared the flag, and is then accepted.  For every queue of messages and
    worlds, from the start of the process: the line of line 159 is never
    printed, and unless an exception ends the loop every trigger of the
    queue is accepted and runs its own cycle.  Two triggers, the second
    one sent while the first cycle runs: the detector is launched twice.
    The claim asks for the second trigger to be discarded with the log
    line and not to be run later. *)
Theorem redundant_trigger_is_never_discarded :
  (forall deliveries temp,
     existsb is_reject_event
       (trace_of (loop_forever deliveries (initial_state temp))) = false /\
     ((exists e,
         result_of (loop_forever deliveries (initial_state temp)) = Raise e) \/
      length (filter is_accept_event
                (trace_of (loop_forever deliveries (initial_state temp))))
      = length (filter is_trigger (map snd deliveries)))) /\
  result_of (loop_forever [(sample_env, trigger); (sample_env, trigger)] idle)
  = Ret tt /\
  filter (fun e => is_accept_event e || is_reject_event e
                   || is_detector_event e || is_alert e)
         (trace_of
            (loop_forever [(sample_env, trigger); (sample_env, trigger)] idle))
  = [SetDetecting true; Popen YOLO_COMMAND; ProcWait 0;
     Printed LogPersonDetected; Printed LogSendingAlert;
     SetDetecting true; Popen YOLO_COMMAND; ProcWait 0;
     Printed LogPersonDetected; Printed LogSendingAlert].
Proof.
  split; [ | split; reflexivity ].
  intros deliveries temp.
  destruct (loop_from_idle deliveries (initial_state temp) eq_refl)
    as [Hrej Hret].
  split; [ exact Hrej | ].
  destruct (result_of (loop_forever deliveries (initial_state temp)))
    as [u | e] eqn:Hres.
  - right. exact (proj2 (Hret u eq_refl)).
  - left. now exists e.
Qed.
